(** * Kanban board (Aditya146699/to_do): the KanbanBoard component

    A shallow embedding of the state handlers of the [KanbanBoard] React
    component and of its two persistence effects, with the properties of
    the board they keep or break.

    Conventions.
    - A JavaScript string is the list of its UTF-16 code units, as
      numbers ([N]).
    - Task objects live in a store ([heap]) and are named by reference: the
      board's columns and [selectedTask] hold references, so a content
      edited in place is seen through every reference.
    - A column object is named by its position in the [columns] array: the
      handlers copy that array ([...columns], [map]) but never reorder it,
      and each position holds an object of its own.
    - A handler that can raise returns a [Result]. *)

From Stdlib Require Import ZArith NArith List Lia.
From Stdlib Require Import Ascii DecimalString DecimalPos DecimalZ.
From stdpp Require Import base decidable option list numbers strings gmap.

(** ** JavaScript strings *)

Module JS.

Local Open Scope N_scope.

Abbreviation code_unit := N.
Abbreviation jsstring := (list code_unit).

(** A string literal of the source (ASCII only). *)
Definition lit (s : string) : jsstring :=
  List.map Ascii.N_of_ascii (String.list_ascii_of_string s).

(** [s === t] on strings. *)
Definition str_eqb (s t : jsstring) : bool := bool_decide (s = t).

(** WhiteSpace and LineTerminator code points, the ones [trim] strips. *)
Definition is_trim_space (c : code_unit) : bool :=
  (9 <=? c) && (c <=? 13)
  || (c =? 32) || (c =? 160) || (c =? 5760)
  || (8192 <=? c) && (c <=? 8202)
  || (c =? 8232) || (c =? 8233) || (c =? 8239) || (c =? 8287)
  || (c =? 12288) || (c =? 65279).

Fixpoint trimStart (s : jsstring) : jsstring :=
  match s with
  | c :: r => if is_trim_space c then trimStart r else s
  | [] => []
  end.

Definition trimEnd (s : jsstring) : jsstring := rev (trimStart (rev s)).

(** [String.prototype.trim]. *)
Definition trim (s : jsstring) : jsstring := trimEnd (trimStart s).

(** Truthiness of a string: the empty string is falsy ([null] is matched
    apart where a cell holds [string | null]). *)
Definition truthy (s : jsstring) : bool :=
  match s with [] => false | _ :: _ => true end.

(** [String(n)] for an integer time value: plain decimal digits, with a
    minus sign below zero (time values stay far below 1e21, where the
    exponent form would start). *)
Definition string_of_int (n : Z) : jsstring :=
  lit (NilZero.string_of_int (Z.to_int n)).

Inductive Error := TypeError | SyntaxError.

Inductive Result (A : Type) :=
  | Ok (a : A)
  | Throw (e : Error).
Global Arguments Ok {A} a.
Global Arguments Throw {A} e.

(** [arr[i]] for a number [i]: [undefined] out of range, also at [-1]. *)
Definition index {A} (l : list A) (i : Z) : option A :=
  if (i <? 0)%Z then None else l !! Z.to_nat i.

(** [arr.findIndex(p)]: the first position where [p] holds, [-1] if none. *)
Fixpoint findIndex {A} (p : A -> bool) (l : list A) : Z :=
  match l with
  | [] => (-1)%Z
  | x :: r =>
      if p x then 0%Z
      else let i := findIndex p r in
           if (i <? 0)%Z then (-1)%Z else (i + 1)%Z
  end.

(** [arr.find(p)] on an array of objects, the object found being named by
    its position. *)
Definition find_pos {A} (p : A -> bool) (l : list A) : option nat :=
  let i := findIndex p l in
  if (i <? 0)%Z then None else Some (Z.to_nat i).

End JS.

Import JS.

(** ** JSON texts

    [JSON.stringify] and [JSON.parse] are the platform's. They are written
    here after ECMA-262 ([QuoteJSONString], [SerializeJSONArray],
    [SerializeJSONObject]) and the JSON grammar of ECMA-404, on strings of
    code units. A number is kept as its lexeme; the properties of an object
    are kept in the order they were first set (keys that are array
    indices, which JavaScript lists first, occur in no board). *)

Module JSON.

Local Open Scope N_scope.

Definition ch (a : Ascii.ascii) : code_unit := Ascii.N_of_ascii a.
Global Arguments ch a%_char : simpl never.
Definition dquote : code_unit := 34.
Definition backslash : code_unit := 92.

#[warnings="-register-all"]
Inductive value :=
  | JNull
  | JBool (b : bool)
  | JNumber (lexeme : jsstring)
  | JString (s : jsstring)
  | JArray (items : list value)
  | JObject (members : list (jsstring * value)).

(** *** Writing a string *)

Definition is_lead (c : code_unit) : bool := (55296 <=? c) && (c <=? 56319).
Definition is_trail (c : code_unit) : bool := (56320 <=? c) && (c <=? 57343).

Definition hex_digit (d : N) : code_unit :=
  if d <? 10 then 48 + d else 87 + d.

(** [UnicodeEscape]: a backslash, [u] and four lower-case hex digits. *)
Definition unicode_escape (c : code_unit) : jsstring :=
  [backslash; ch "u"; hex_digit (c / 4096 mod 16); hex_digit (c / 256 mod 16);
   hex_digit (c / 16 mod 16); hex_digit (c mod 16)].

(** One code unit that is not a leading surrogate. *)
Definition escape_unit (c : code_unit) : jsstring :=
  if c =? 8 then [backslash; ch "b"]
  else if c =? 9 then [backslash; ch "t"]
  else if c =? 10 then [backslash; ch "n"]
  else if c =? 12 then [backslash; ch "f"]
  else if c =? 13 then [backslash; ch "r"]
  else if c =? dquote then [backslash; dquote]
  else if c =? backslash then [backslash; backslash]
  else if (c <? 32) || is_trail c then unicode_escape c
  else [c].

(** The code points of the string in turn: a surrogate pair is written as
    it is, a surrogate on its own is escaped. *)
Fixpoint quote_units (s : jsstring) : jsstring :=
  match s with
  | [] => []
  | c :: r =>
      if is_lead c then
        match r with
        | d :: r' =>
            if is_trail d then c :: d :: quote_units r'
            else unicode_escape c ++ quote_units r
        | [] => unicode_escape c
        end
      else escape_unit c ++ quote_units r
  end.

Definition QuoteJSONString (s : jsstring) : jsstring :=
  dquote :: quote_units s ++ [dquote].

(** *** Reading a text *)

Definition is_ws (c : code_unit) : bool :=
  (c =? 32) || (c =? 9) || (c =? 10) || (c =? 13).

Fixpoint skip_ws (s : jsstring) : jsstring :=
  match s with
  | c :: r => if is_ws c then skip_ws r else s
  | [] => []
  end.

Definition is_digit (c : code_unit) : bool := (48 <=? c) && (c <=? 57).

Definition hex_val (c : code_unit) : option N :=
  if is_digit c then Some (c - 48)
  else if (97 <=? c) && (c <=? 102) then Some (c - 87)
  else if (65 <=? c) && (c <=? 70) then Some (c - 55)
  else None.

Definition hex4 (a b c d : code_unit) : option code_unit :=
  match hex_val a, hex_val b, hex_val c, hex_val d with
  | Some x, Some y, Some z, Some w => Some (((x * 16 + y) * 16 + z) * 16 + w)
  | _, _, _, _ => None
  end.

(** The code unit a two-character escape stands for. *)
Definition unescape (e : code_unit) : option code_unit :=
  if e =? dquote then Some dquote
  else if e =? backslash then Some backslash
  else if e =? ch "/" then Some (ch "/")
  else if e =? ch "b" then Some 8
  else if e =? ch "f" then Some 12
  else if e =? ch "n" then Some 10
  else if e =? ch "r" then Some 13
  else if e =? ch "t" then Some 9
  else None.

Definition cons_unit (c : code_unit) (o : option (jsstring * jsstring))
    : option (jsstring * jsstring) :=
  match o with Some (str, rest) => Some (c :: str, rest) | None => None end.

(** The characters of a string after its opening quote, up to the closing
    one: the string read and the text left. *)
Fixpoint parse_chars (s : jsstring) : option (jsstring * jsstring) :=
  match s with
  | [] => None
  | c :: r =>
      if c =? dquote then Some ([], r)
      else if c =? backslash then
        match r with
        | e :: r1 =>
            if e =? ch "u" then
              match r1 with
              | h3 :: h2 :: h1 :: h0 :: r2 =>
                  match hex4 h3 h2 h1 h0 with
                  | Some u => cons_unit u (parse_chars r2)
                  | None => None
                  end
              | _ => None
              end
            else
              match unescape e with
              | Some u => cons_unit u (parse_chars r1)
              | None => None
              end
        | [] => None
        end
      else if c <? 32 then None
      else cons_unit c (parse_chars r)
  end.

Fixpoint digits (s : jsstring) : jsstring * jsstring :=
  match s with
  | c :: r =>
      if is_digit c then let '(ds, r') := digits r in (c :: ds, r')
      else ([], s)
  | [] => ([], [])
  end.

Definition scan_sign (s : jsstring) : jsstring * jsstring :=
  match s with
  | c :: r => if c =? ch "-" then ([c], r) else ([], s)
  | [] => ([], [])
  end.

Definition scan_int (s : jsstring) : option (jsstring * jsstring) :=
  match s with
  | c :: r =>
      if c =? ch "0" then Some ([c], r)
      else if is_digit c then let '(ds, r') := digits r in Some (c :: ds, r')
      else None
  | [] => None
  end.

Definition scan_frac (s : jsstring) : option (jsstring * jsstring) :=
  match s with
  | c :: r =>
      if c =? ch "." then
        match digits r with
        | ([], _) => None
        | (ds, r') => Some (c :: ds, r')
        end
      else Some ([], s)
  | [] => Some ([], [])
  end.

Definition scan_exp (s : jsstring) : option (jsstring * jsstring) :=
  match s with
  | c :: r =>
      if (c =? ch "e") || (c =? ch "E") then
        let '(sign, r1) :=
          match r with
          | d :: r1 => if (d =? ch "+") || (d =? ch "-") then ([d], r1)
                       else ([], r)
          | [] => ([], [])
          end in
        match digits r1 with
        | ([], _) => None
        | (ds, r2) => Some (c :: sign ++ ds, r2)
        end
      else Some ([], s)
  | [] => Some ([], [])
  end.

(** A number: its lexeme and the text left. *)
Definition parse_number (s : jsstring) : option (jsstring * jsstring) :=
  let '(sign, s1) := scan_sign s in
  match scan_int s1 with
  | None => None
  | Some (i, s2) =>
      match scan_frac s2 with
      | None => None
      | Some (f, s3) =>
          match scan_exp s3 with
          | None => None
          | Some (e, s4) => Some (sign ++ i ++ f ++ e, s4)
          end
      end
  end.

Fixpoint strip_prefix (p s : jsstring) : option jsstring :=
  match p with
  | [] => Some s
  | a :: p' =>
      match s with
      | b :: s' => if a =? b then strip_prefix p' s' else None
      | [] => None
      end
  end.

(** Setting a property: a key that is there keeps its place and takes
    the new value. *)
Fixpoint obj_set (k : jsstring) (v : value) (o : list (jsstring * value))
    : list (jsstring * value) :=
  match o with
  | [] => [(k, v)]
  | (k', v') :: o' =>
      if str_eqb k' k then (k', v) :: o' else (k', v') :: obj_set k v o'
  end.

Definition object_of (ms : list (jsstring * value)) : list (jsstring * value) :=
  fold_left (fun o kv => obj_set (fst kv) (snd kv) o) ms [].

Inductive outcome (A : Type) :=
  | Parsed (a : A) (rest : jsstring)
  | Failed
  | OutOfFuel.
Global Arguments Parsed {A} a rest.
Global Arguments Failed {A}.
Global Arguments OutOfFuel {A}.

Definition outcome_map {A B} (f : A -> B) (o : outcome A) : outcome B :=
  match o with
  | Parsed a rest => Parsed (f a) rest
  | Failed => Failed
  | OutOfFuel => OutOfFuel
  end.

Definition parse_literal (s : jsstring) : outcome value :=
  match strip_prefix (lit "true") s with
  | Some rest => Parsed (JBool true) rest
  | None =>
      match strip_prefix (lit "false") s with
      | Some rest => Parsed (JBool false) rest
      | None =>
          match strip_prefix (lit "null") s with
          | Some rest => Parsed JNull rest
          | None => Failed
          end
      end
  end.

(** A value, the elements of an array after its bracket and the members of
    an object after its brace, by recursive descent. Each of the three is
    written over the parsers it calls. *)
Definition value_with
    (elements : jsstring -> outcome (list value))
    (members : jsstring -> outcome (list (jsstring * value)))
    (s : jsstring) : outcome value :=
  match skip_ws s with
  | [] => Failed
  | c :: r =>
      if c =? ch "{" then
        match skip_ws r with
        | c' :: r' =>
            if c' =? ch "}" then Parsed (JObject []) r'
            else outcome_map (fun ms => JObject (object_of ms))
                   (members (c' :: r'))
        | [] => Failed
        end
      else if c =? ch "[" then
        match skip_ws r with
        | c' :: r' =>
            if c' =? ch "]" then Parsed (JArray []) r'
            else outcome_map JArray (elements (c' :: r'))
        | [] => Failed
        end
      else if c =? dquote then
        match parse_chars r with
        | Some (str, rest) => Parsed (JString str) rest
        | None => Failed
        end
      else if (c =? ch "-") || is_digit c then
        match parse_number (c :: r) with
        | Some (n, rest) => Parsed (JNumber n) rest
        | None => Failed
        end
      else parse_literal (c :: r)
  end.

Definition elements_with
    (value_at : jsstring -> outcome value)
    (elements : jsstring -> outcome (list value))
    (s : jsstring) : outcome (list value) :=
  match value_at s with
  | Parsed v r =>
      match skip_ws r with
      | c :: r' =>
          if c =? ch "," then outcome_map (cons v) (elements r')
          else if c =? ch "]" then Parsed [v] r'
          else Failed
      | [] => Failed
      end
  | Failed => Failed
  | OutOfFuel => OutOfFuel
  end.

Definition members_with
    (value_at : jsstring -> outcome value)
    (members : jsstring -> outcome (list (jsstring * value)))
    (s : jsstring) : outcome (list (jsstring * value)) :=
  match skip_ws s with
  | c :: r =>
      if c =? dquote then
        match parse_chars r with
        | Some (key, r1) =>
            match skip_ws r1 with
            | c1 :: r2 =>
                if c1 =? ch ":" then
                  match value_at r2 with
                  | Parsed v r3 =>
                      match skip_ws r3 with
                      | c3 :: r4 =>
                          if c3 =? ch "," then
                            outcome_map (cons (key, v)) (members r4)
                          else if c3 =? ch "}" then Parsed [(key, v)] r4
                          else Failed
                      | [] => Failed
                      end
                  | Failed => Failed
                  | OutOfFuel => OutOfFuel
                  end
                else Failed
            | [] => Failed
            end
        | None => Failed
        end
      else Failed
  | [] => Failed
  end.

(** The three parsers, [fuel] bounding the depth of their calls. *)
Fixpoint parse_value (fuel : nat) (s : jsstring) : outcome value :=
  match fuel with
  | O => OutOfFuel
  | S fuel => value_with (parse_elements fuel) (parse_members fuel) s
  end
with parse_elements (fuel : nat) (s : jsstring) : outcome (list value) :=
  match fuel with
  | O => OutOfFuel
  | S fuel => elements_with (parse_value fuel) (parse_elements fuel) s
  end
with parse_members (fuel : nat) (s : jsstring)
    : outcome (list (jsstring * value)) :=
  match fuel with
  | O => OutOfFuel
  | S fuel => members_with (parse_value fuel) (parse_members fuel) s
  end.

(** [JSON.parse(text)]: one value with white space around it and nothing
    else, or a [SyntaxError]. The fuel given is enough for every text. *)
Definition parse (text : jsstring) : Result value :=
  match parse_value (2 * length text + 1) text with
  | Parsed v rest =>
      match skip_ws rest with
      | [] => Ok v
      | _ :: _ => Throw SyntaxError
      end
  | Failed => Throw SyntaxError
  | OutOfFuel => Throw SyntaxError
  end.

(** A parser leaves less text than it was given. *)
Definition shrinks {A} (p : jsstring -> outcome A) : Prop :=
  forall s a r, p s = Parsed a r -> (length r < length s)%nat.

(** An outcome that, unless the fuel ran out, is the other one. *)
Definition below {A} (o o' : outcome A) : Prop := o = OutOfFuel \/ o = o'.

(** *** Writing arrays and objects *)

Fixpoint join_comma (parts : list jsstring) : jsstring :=
  match parts with
  | [] => []
  | [p] => p
  | p :: ps => p ++ ch "," :: join_comma ps
  end.

(** [SerializeJSONArray] without indentation, on the texts of the
    elements. *)
Definition write_array (parts : list jsstring) : jsstring :=
  ch "[" :: join_comma parts ++ [ch "]"].

(** [SerializeJSONObject] without indentation, on the keys and the texts of
    the property values. *)
Definition write_object (members : list (jsstring * jsstring)) : jsstring :=
  ch "{" :: join_comma
              (List.map (fun m => QuoteJSONString (fst m) ++ ch ":" :: snd m)
                        members)
         ++ [ch "}"].

End JSON.

(** ** Data model *)

Module Task.
Record t := mk { id : jsstring; content : jsstring }.
End Task.

Module Column.
(** A column over its tasks: references in the component state, task
    values in the board read through them. *)
Record t (A : Type) := mk { id : jsstring; title : jsstring; tasks : list A }.
Global Arguments mk {A} id title tasks.
Global Arguments id {A} _.
Global Arguments title {A} _.
Global Arguments tasks {A} _.

Definition with_tasks {A B} (c : t A) (ts : list B) : t B :=
  mk (id c) (title c) ts.
End Column.

Abbreviation ref := nat.

(** The board as a value: columns of tasks. *)
Abbreviation Board := (list (Column.t Task.t)).

Global Instance Task_inhabited : Inhabited Task.t :=
  populate (Task.mk [] []).

(** The state of the component: the task store and the seven [useState]
    cells. *)
Record State := mkState {
  heap : list Task.t;
  columns : list (Column.t ref);
  newTaskContent : jsstring;
  isEditing : bool;
  editTaskId : option jsstring;
  editContent : jsstring;
  isFullscreenViewOpen : bool;
  selectedTask : option ref
}.

(** The object behind a reference. The references of a well-formed state
    ([wf] below) are allocated: the default of [!!!] is never read. *)
Definition deref (h : list Task.t) (r : ref) : Task.t := h !!! r.

Definition read_column (h : list Task.t) (c : Column.t ref) : Column.t Task.t :=
  Column.with_tasks c (List.map (deref h) (Column.tasks c)).

(** The board a state holds. *)
Definition board (st : State) : Board :=
  List.map (read_column (heap st)) (columns st).

Definition initialColumns : list (Column.t ref) :=
  [ Column.mk (lit "todo") (lit "To Do") [];
    Column.mk (lit "doing") (lit "Doing") [];
    Column.mk (lit "done") (lit "Done") [] ].

Definition initialState : State :=
  {| heap := []; columns := initialColumns; newTaskContent := [];
     isEditing := false; editTaskId := None; editContent := [];
     isFullscreenViewOpen := false; selectedTask := None |}.

Definition set_columns (cols : list (Column.t ref)) (st : State) : State :=
  {| heap := heap st; columns := cols; newTaskContent := newTaskContent st;
     isEditing := isEditing st; editTaskId := editTaskId st;
     editContent := editContent st;
     isFullscreenViewOpen := isFullscreenViewOpen st;
     selectedTask := selectedTask st |}.

Definition set_heap (h : list Task.t) (st : State) : State :=
  {| heap := h; columns := columns st; newTaskContent := newTaskContent st;
     isEditing := isEditing st; editTaskId := editTaskId st;
     editContent := editContent st;
     isFullscreenViewOpen := isFullscreenViewOpen st;
     selectedTask := selectedTask st |}.

Definition setNewTaskContent (s : jsstring) (st : State) : State :=
  {| heap := heap st; columns := columns st; newTaskContent := s;
     isEditing := isEditing st; editTaskId := editTaskId st;
     editContent := editContent st;
     isFullscreenViewOpen := isFullscreenViewOpen st;
     selectedTask := selectedTask st |}.

Definition set_edit (e : bool) (tid : option jsstring) (buf : jsstring)
    (st : State) : State :=
  {| heap := heap st; columns := columns st; newTaskContent := newTaskContent st;
     isEditing := e; editTaskId := tid; editContent := buf;
     isFullscreenViewOpen := isFullscreenViewOpen st;
     selectedTask := selectedTask st |}.

Definition set_view (open : bool) (sel : option ref) (st : State) : State :=
  {| heap := heap st; columns := columns st; newTaskContent := newTaskContent st;
     isEditing := isEditing st; editTaskId := editTaskId st;
     editContent := editContent st;
     isFullscreenViewOpen := open; selectedTask := sel |}.

(** ** Handlers *)

(** The work of [onDrop] and [handleDeleteTask] on the [columns] array,
    written once over what stands for a task: a reference in the
    component state, a task value in the board read through it. *)
Section Columns.
Context {A : Type} (id_of : A -> jsstring).

(** [(task) => task.id === taskId]. *)
Definition has_id (taskId : jsstring) (task : A) : bool :=
  str_eqb (id_of task) taskId.

(** [column.tasks = column.tasks.filter((task) => task.id !== taskId)]. *)
Definition keep_others (taskId : jsstring) (c : Column.t A) : Column.t A :=
  Column.with_tasks c
    (List.filter (fun task => negb (has_id taskId task)) (Column.tasks c)).

(** [column.tasks.push(task)]. *)
Definition push_task (task : A) (c : Column.t A) : Column.t A :=
  Column.with_tasks c (Column.tasks c ++ [task]).

(** The body of [onDrop]: [Ok None] when it returns without calling
    [setColumns], [Ok (Some updatedColumns)] when it calls it. The
    filtered list is stored in the source column before the task is
    pushed on the destination column, which may be the same object. *)
Definition drop_on (taskId columnId : jsstring) (columns : list (Column.t A))
    : Result (option (list (Column.t A))) :=
  let sourceColumnIndex :=
    findIndex (fun col => existsb (has_id taskId) (Column.tasks col))
              columns in
  let destinationColumn :=
    find_pos (fun col => str_eqb (Column.id col) columnId) columns in
  match destinationColumn with
  | None => Ok None
  | Some d =>
      match index columns sourceColumnIndex with
      | None => Throw TypeError
      | Some src =>
          match List.find (has_id taskId) (Column.tasks src) with
          | None => Ok None
          | Some task =>
              let updatedColumns :=
                alter (keep_others taskId) (Z.to_nat sourceColumnIndex)
                      columns in
              let updatedColumns :=
                alter (push_task task) d updatedColumns in
              Ok (Some updatedColumns)
          end
      end
  end.

(** The [map] of [handleDeleteTask]. *)
Definition delete_from (taskId : jsstring) (columns : list (Column.t A))
    : list (Column.t A) :=
  List.map (keep_others taskId) columns.
End Columns.

(** [task.id] through a reference. *)
Definition id_at (h : list Task.t) (r : ref) : jsstring := Task.id (deref h r).

(** [onDrop], with [taskId] the string read from the drag data and
    [columnId] the column dropped on. *)
Definition onDrop (taskId columnId : jsstring) (st : State) : Result State :=
  match drop_on (id_at (heap st)) taskId columnId (columns st) with
  | Ok None => Ok st
  | Ok (Some updatedColumns) => Ok (set_columns updatedColumns st)
  | Throw e => Throw e
  end.

(** [handleCreateTask], with [now] the value [Date.now()] returns. *)
Definition handleCreateTask (now : Z) (st : State) : Result State :=
  if truthy (trim (newTaskContent st)) then
    let newTask :=
      Task.mk (lit "task-" ++ string_of_int now) (newTaskContent st) in
    match columns st with
    | [] => Throw TypeError
    | c :: cs =>
        Ok (setNewTaskContent []
              (set_columns (push_task (length (heap st)) c :: cs)
                 (set_heap (heap st ++ [newTask]) st)))
    end
  else Ok st.

Definition handleInputChange (value : jsstring) (st : State) : State :=
  setNewTaskContent value st.

Definition handleDeleteTask (taskId : jsstring) (st : State) : State :=
  set_columns (delete_from (id_at (heap st)) taskId (columns st)) st.

Definition handleEditTask (taskId content : jsstring) (st : State) : State :=
  set_edit true (Some taskId) content st.

(** [task.content = editContent] on the object behind [r]. *)
Definition set_content (buf : jsstring) (r : ref) (h : list Task.t)
    : list Task.t :=
  alter (fun t => Task.mk (Task.id t) buf) r h.

(** The body of the [forEach] of [handleSaveEdit] at one column. *)
Definition save_in_column (tid buf : jsstring) (h : list Task.t)
    (column : Column.t ref) : list Task.t :=
  let taskIndex := findIndex (has_id (id_at h) tid) (Column.tasks column) in
  if (taskIndex =? -1)%Z then h
  else match index (Column.tasks column) taskIndex with
       | Some r => set_content buf r h
       | None => h
       end.

Definition handleSaveEdit (st : State) : State :=
  match editTaskId st with
  | Some tid =>
      if truthy tid && truthy (trim (editContent st)) then
        let h := fold_left (save_in_column tid (editContent st))
                           (columns st) (heap st) in
        set_edit false None [] (set_heap h st)
      else st
  | None => st
  end.

Definition handleCancelEdit (st : State) : State :=
  set_edit false None [] st.

Definition openFullscreenView (task : ref) (st : State) : State :=
  set_view true (Some task) st.

Definition closeFullscreenView (st : State) : State :=
  set_view false None st.

(** ** Persistence *)

Import JSON.

(** A board as the JSON value its objects make: arrays of objects with the
    properties in the order the code creates them. *)
Definition json_of_task (t : Task.t) : value :=
  JObject [(lit "id", JString (Task.id t));
           (lit "content", JString (Task.content t))].

Definition json_of_column (c : Column.t Task.t) : value :=
  JObject [(lit "id", JString (Column.id c));
           (lit "title", JString (Column.title c));
           (lit "tasks", JArray (List.map json_of_task (Column.tasks c)))].

Definition json_of_board (b : Board) : value :=
  JArray (List.map json_of_column b).

Definition stringify_task (t : Task.t) : jsstring :=
  write_object [(lit "id", QuoteJSONString (Task.id t));
                (lit "content", QuoteJSONString (Task.content t))].

Definition stringify_column (c : Column.t Task.t) : jsstring :=
  write_object [(lit "id", QuoteJSONString (Column.id c));
                (lit "title", QuoteJSONString (Column.title c));
                (lit "tasks",
                 write_array (List.map stringify_task (Column.tasks c)))].

(** [JSON.stringify(columns)]. *)
Definition stringify (b : Board) : jsstring :=
  write_array (List.map stringify_column b).

Fixpoint all_some {A} (l : list (option A)) : option (list A) :=
  match l with
  | [] => Some []
  | Some a :: r => option_map (cons a) (all_some r)
  | None :: _ => None
  end.

(** The parsed values that are boards: the only ones the typed handlers
    are written for. *)
Definition task_of_json (v : value) : option Task.t :=
  match v with
  | JObject [(k1, JString i); (k2, JString c)] =>
      if str_eqb k1 (lit "id") && str_eqb k2 (lit "content")
      then Some (Task.mk i c) else None
  | _ => None
  end.

Definition column_of_json (v : value) : option (Column.t Task.t) :=
  match v with
  | JObject [(k1, JString i); (k2, JString t); (k3, JArray ts)] =>
      if str_eqb k1 (lit "id") && str_eqb k2 (lit "title")
         && str_eqb k3 (lit "tasks")
      then option_map (Column.mk i t) (all_some (List.map task_of_json ts))
      else None
  | _ => None
  end.

Definition board_of_json (v : value) : option Board :=
  match v with
  | JArray cs => all_some (List.map column_of_json cs)
  | _ => None
  end.

(** What the load effect does with the value stored under
    ['kanban-columns']: nothing; [setColumns] of a board; or [setColumns]
    of a parsed value of another shape, which is stored all the same and
    which the handlers here do not describe. *)
Inductive Loaded :=
  | Kept
  | Typed (b : Board)
  | Untyped (v : value).

(** The first effect, [savedColumns] being what [getItem] returned
    ([null] when the key is absent). *)
Definition loadEffect (savedColumns : option jsstring) : Result Loaded :=
  match savedColumns with
  | None => Ok Kept
  | Some text =>
      if truthy text then
        match parse text with
        | Ok v =>
            Ok (match board_of_json v with
                | Some b => Typed b
                | None => Untyped v
                end)
        | Throw e => Throw e
        end
      else Ok Kept
  end.

(** The second effect: the text written under ['kanban-columns']. *)
Definition saveEffect (st : State) : jsstring := stringify (board st).

(** [setColumns] of a parsed board: every task is an object of its own. *)
Fixpoint alloc_columns (h : list Task.t) (b : Board)
    : list Task.t * list (Column.t ref) :=
  match b with
  | [] => (h, [])
  | c :: b' =>
      let ts := Column.tasks c in
      let '(h', cols) := alloc_columns (h ++ ts) b' in
      (h', Column.with_tasks c (seq (length h) (length ts)) :: cols)
  end.

Definition set_board (b : Board) (st : State) : State :=
  let '(h, cols) := alloc_columns (heap st) b in
  set_columns cols (set_heap h st).

(** The component once mounted on a storage: its state after the two
    effects have run, when the stored value is absent, empty or a board. *)
Definition mount (savedColumns : option jsstring) : Result (option State) :=
  match loadEffect savedColumns with
  | Ok Kept => Ok (Some initialState)
  | Ok (Typed b) => Ok (Some (set_board b initialState))
  | Ok (Untyped _) => Ok None
  | Throw e => Throw e
  end.

(** [localStorage]: strings under string keys. *)
Abbreviation Storage := (gmap jsstring jsstring).

Definition kanban_key : jsstring := lit "kanban-columns".

(** The component mounted on a storage: the load effect reads the stored
    value, the save effect writes the text of the default board, and when
    the load effect has set a board the component renders again and the
    save effect writes that board. [None] when the stored value is JSON of
    another shape than a board's. *)
Definition mountKanban (s : Storage) : Result (option (State * Storage)) :=
  match mount (s !! kanban_key) with
  | Ok (Some st) => Ok (Some (st, <[kanban_key := saveEffect st]> s))
  | Ok None => Ok None
  | Throw e => Throw e
  end.

(** ** The theme widget ([ThemeProvider]) *)

Definition theme_key : jsstring := lit "theme".

(** The [theme] cell and the [data-theme] attribute of the document. *)
Record ThemeState := mkTheme {
  theme : jsstring;
  data_theme : option jsstring
}.

(** [useState("default")], before the effect has run. *)
Definition initialTheme : ThemeState :=
  {| theme := lit "default"; data_theme := None |}.

(** The effect run on mount: [getItem("theme") || "default"]. *)
Definition themeEffect (s : Storage) : ThemeState :=
  let savedTheme :=
    match s !! theme_key with
    | Some t => if truthy t then t else lit "default"
    | None => lit "default"
    end in
  {| theme := savedTheme; data_theme := Some savedTheme |}.

Definition changeTheme (newTheme : jsstring) (s : Storage)
    : ThemeState * Storage :=
  ({| theme := newTheme; data_theme := Some newTheme |},
   <[theme_key := newTheme]> s).

(** The themes of the dropdown. *)
Definition themes : list jsstring :=
  List.map lit
    ["default"; "cupcake"; "retro"; "luxury"; "sunset"; "night"; "cyberpunk";
     "valentine"; "aqua"; "winter"; "dracula"; "synthwave"; "halloween";
     "coffee"]%string.

(** ** The detail view *)

(** What the component renders of the detail view: nothing, the task with
    its Edit, Delete and Close buttons, or the edit form with Save and
    Cancel. *)
Inductive View :=
  | Closed
  | Viewing (task : ref)
  | Editing (task : ref).

Definition view (st : State) : View :=
  if isFullscreenViewOpen st then
    match selectedTask st with
    | Some r =>
        if isEditing st
           && bool_decide (editTaskId st = Some (Task.id (deref (heap st) r)))
        then Editing r else Viewing r
    | None => Closed
    end
  else Closed.

(** The [onClick] of the Edit and Delete buttons, [selectedTask] being the
    task the view is open on. *)
Definition onEditClick (selected : ref) (st : State) : State :=
  let t := deref (heap st) selected in
  handleEditTask (Task.id t) (Task.content t) st.

Definition onDeleteClick (selected : ref) (st : State) : State :=
  closeFullscreenView
    (handleDeleteTask (Task.id (deref (heap st) selected)) st).

(** ** Reading the board *)

Definition refs (cols : list (Column.t ref)) : list ref :=
  concat (List.map Column.tasks cols).

(** References are allocated, and no task object sits at two places of the
    board. *)
Definition wf (st : State) : Prop :=
  Forall (fun r => r < length (heap st)) (refs (columns st))
  /\ NoDup (refs (columns st))
  /\ from_option (fun r => r < length (heap st)) True (selectedTask st).

Global Instance wf_dec st : Decision (wf st).
Proof. unfold wf. destruct (selectedTask st); simpl; apply _. Defined.

Definition all_tasks (b : Board) : list Task.t :=
  concat (List.map Column.tasks b).

Definition task_ids (b : Board) : list jsstring :=
  List.map Task.id (all_tasks b).

(** Total number of tasks of a board. *)
Definition total (b : Board) : nat := length (all_tasks b).

(** The state the component holds once a handler has run: a handler that
    raised called no setter and had changed no object yet. *)
Definition state_after (r : Result State) (st : State) : State :=
  match r with Ok st' => st' | Throw _ => st end.

(** ** Gestures

    What the user can do on the rendered component. A control that is not
    rendered gives [None]: a task can be opened when it is on the board, a
    drop lands on a column of the board, Edit, Delete and Close are there
    when the view shows a task, the text area, Save and Cancel when it
    shows the edit form. The drag data is any string. *)
Inductive Event :=
  | InputChange (value : jsstring)
  | AddTaskClick (now : Z)
  | DropOn (taskId columnId : jsstring)
  | OpenClick (task : ref)
  | EditClick
  | EditChange (value : jsstring)
  | SaveClick
  | CancelClick
  | DeleteClick
  | CloseClick.

Definition setEditContent (value : jsstring) (st : State) : State :=
  set_edit (isEditing st) (editTaskId st) value st.

Definition dispatch (e : Event) (st : State) : option (Result State) :=
  match e with
  | InputChange value => Some (Ok (handleInputChange value st))
  | AddTaskClick now => Some (handleCreateTask now st)
  | DropOn taskId columnId =>
      if existsb (fun col => str_eqb (Column.id col) columnId) (columns st)
      then Some (onDrop taskId columnId st) else None
  | OpenClick task =>
      if bool_decide (task ∈ refs (columns st))
      then Some (Ok (openFullscreenView task st)) else None
  | EditClick =>
      match view st with
      | Viewing task => Some (Ok (onEditClick task st))
      | _ => None
      end
  | DeleteClick =>
      match view st with
      | Viewing task => Some (Ok (onDeleteClick task st))
      | _ => None
      end
  | CloseClick =>
      match view st with
      | Viewing _ => Some (Ok (closeFullscreenView st))
      | _ => None
      end
  | EditChange value =>
      match view st with
      | Editing _ => Some (Ok (setEditContent value st))
      | _ => None
      end
  | SaveClick =>
      match view st with
      | Editing _ => Some (Ok (handleSaveEdit st))
      | _ => None
      end
  | CancelClick =>
      match view st with
      | Editing _ => Some (Ok (handleCancelEdit st))
      | _ => None
      end
  end.

(** The states a run of gestures reaches from a mounted component; a
    gesture whose handler raises ends the run. *)
Inductive reachable (st0 : State) : State -> Prop :=
  | reach_start : reachable st0 st0
  | reach_step st e st' :
      reachable st0 st -> dispatch e st = Some (Ok st') -> reachable st0 st'.

Definition Result_map {A B} (f : A -> B) (r : Result A) : Result B :=
  match r with Ok a => Ok (f a) | Throw e => Throw e end.

Definition column_map {A B} (f : A -> B) (c : Column.t A) : Column.t B :=
  Column.with_tasks c (List.map f (Column.tasks c)).

(** The move on a board value. *)
Definition drop_board (taskId columnId : jsstring) (b : Board) : Result Board :=
  match drop_on Task.id taskId columnId b with
  | Ok None => Ok b
  | Ok (Some b') => Ok b'
  | Throw e => Throw e
  end.

(** Number of tasks of a list that carry the id. *)
Definition count_id (taskId : jsstring) (ts : list Task.t) : nat :=
  length (List.filter (has_id Task.id taskId) ts).

(** What saving an edit does to the tasks of one column, as values: the
    first task of the id gets the buffer for content. *)
Fixpoint edit_first (tid buf : jsstring) (ts : list Task.t) : list Task.t :=
  match ts with
  | [] => []
  | t :: r =>
      if has_id Task.id tid t then Task.mk (Task.id t) buf :: r
      else t :: edit_first tid buf r
  end.

Definition edit_board (tid buf : jsstring) (b : Board) : Board :=
  List.map (fun c => Column.with_tasks c (edit_first tid buf (Column.tasks c))) b.

(** A run of creations from the input texts and the clock values read. *)
Fixpoint create_all (inputs : list (jsstring * Z)) (st : State) : Result State :=
  match inputs with
  | [] => Ok st
  | (value, now) :: more =>
      match handleCreateTask now (handleInputChange value st) with
      | Ok st' => create_all more st'
      | Throw e => Throw e
      end
  end.

(** The id made at a clock value. *)
Definition id_at_clock (now : Z) : jsstring := lit "task-" ++ string_of_int now.

(** ** Sample states *)

Definition column_of (i title : string) (ts : list ref) : Column.t ref :=
  Column.mk (lit i) (lit title) ts.

Definition state_of (h : list Task.t) (cols : list (Column.t ref)) : State :=
  set_columns cols (set_heap h initialState).

(** One task in the first column, and [" b "] typed in the input. *)
Definition st_one : State :=
  setNewTaskContent (lit " b ")
    (state_of [Task.mk (lit "task-5") (lit "write spec")]
       [column_of "todo" "To Do" [0]; column_of "doing" "Doing" [];
        column_of "done" "Done" []]).

(** Two tasks of the first column made at the same clock value, and a
    third one. *)
Definition st_twins : State :=
  state_of [Task.mk (lit "task-5") (lit "a"); Task.mk (lit "task-5") (lit "b");
            Task.mk (lit "task-7") (lit "c")]
    [column_of "todo" "To Do" [0; 1; 2]; column_of "doing" "Doing" [];
     column_of "done" "Done" []].

(** Three tasks with ids of their own, over two columns, the detail view
    open on the second. *)
Definition st_three : State :=
  openFullscreenView 1
    (state_of [Task.mk (lit "task-5") (lit "a"); Task.mk (lit "task-6") (lit "b");
               Task.mk (lit "task-7") (lit "c")]
       [column_of "todo" "To Do" [0; 1]; column_of "doing" "Doing" [2];
        column_of "done" "Done" []]).

(** * Properties *)

(** ** Reading through references *)

Lemma deref_alloc h t r : r < length h -> deref (h ++ [t]) r = deref h r.
Proof. intros Hr. unfold deref. by rewrite lookup_total_app_l. Qed.

Lemma deref_fresh h t : deref (h ++ [t]) (length h) = t.
Proof.
  unfold deref. rewrite lookup_total_app_r by lia.
  by rewrite Nat.sub_diag.
Qed.

Lemma map_deref_alloc h t rs :
  Forall (fun r => r < length h) rs ->
  List.map (deref (h ++ [t])) rs = List.map (deref h) rs.
Proof.
  induction 1 as [|r rs Hr _ IH]; simpl; [done|].
  by rewrite deref_alloc, IH.
Qed.

Lemma refs_cons c cs : refs (c :: cs) = Column.tasks c ++ refs cs.
Proof. reflexivity. Qed.

Lemma refs_app cs1 cs2 : refs (cs1 ++ cs2) = refs cs1 ++ refs cs2.
Proof.
  induction cs1 as [|c cs1 IH]; simpl; [done|].
  by rewrite !refs_cons, IH, app_assoc.
Qed.

Lemma read_columns_alloc h t cs :
  Forall (fun r => r < length h) (refs cs) ->
  List.map (read_column (h ++ [t])) cs = List.map (read_column h) cs.
Proof.
  induction cs as [|c cs IH]; simpl; [done|].
  rewrite refs_cons, Forall_app. intros [Hc Hcs].
  rewrite IH by done. f_equal.
  unfold read_column. by rewrite map_deref_alloc.
Qed.

(** ** Creating a task *)

(** C4, as the code has it. A buffer that trims to the empty string leaves
    the state as it is; any other buffer appends exactly one task at the end
    of the first column, with the id ["task-" ++ now] and with the buffer as
    it was typed for content (it is not trimmed), and clears the buffer. *)
Theorem handleCreateTask_spec (now : Z) (st : State) :
  wf st ->
  (truthy (trim (newTaskContent st)) = false ->
   handleCreateTask now st = Ok st)
  /\ (truthy (trim (newTaskContent st)) = true ->
      forall c cs, board st = c :: cs ->
      exists st',
        handleCreateTask now st = Ok st'
        /\ board st' =
             Column.with_tasks c
               (Column.tasks c
                ++ [Task.mk (lit "task-" ++ string_of_int now)
                            (newTaskContent st)]) :: cs
        /\ newTaskContent st' = []).
Proof.
  intros (Hb & _ & _). unfold handleCreateTask. split; intros ->; [done|].
  intros c cs Hboard. unfold board in Hboard.
  destruct (columns st) as [|c0 cs0] eqn:Hcols; [done|].
  simpl in Hboard. injection Hboard as <- <-.
  eexists. split; [reflexivity|]. split; [|done].
  rewrite refs_cons, Forall_app in Hb. destruct Hb as [Hc0 Hcs0].
  unfold board. simpl. rewrite read_columns_alloc by done. f_equal.
  unfold read_column, push_task, Column.with_tasks. simpl. f_equal.
  rewrite map_app, map_deref_alloc by done. simpl.
  by rewrite deref_fresh.
Qed.

Lemma handleCreateTask_spec_witness :
  wf st_one
  /\ truthy (trim (newTaskContent st_one)) = true
  /\ exists st',
       handleCreateTask 9 st_one = Ok st'
       /\ board st' =
            [ Column.mk (lit "todo") (lit "To Do")
                [Task.mk (lit "task-5") (lit "write spec");
                 Task.mk (lit "task-9") (lit " b ")];
              Column.mk (lit "doing") (lit "Doing") [];
              Column.mk (lit "done") (lit "Done") [] ]
       /\ newTaskContent st' = [].
Proof.
  assert (Hwf : wf st_one).
  { by apply (bool_decide_unpack _); vm_compute. }
  split; [exact Hwf|]. split; [reflexivity|].
  exact (proj2 (handleCreateTask_spec 9 st_one Hwf) eq_refl _ _ eq_refl).
Defined.

(** C4 as worded fails: with [" b "] typed, the task made holds [" b "],
    which is not the trimmed text. *)
Lemma handleCreateTask_content_untrimmed :
  exists st' t,
    handleCreateTask 9 st_one = Ok st'
    /\ last (all_tasks (board st')) = Some t
    /\ trim (newTaskContent st_one) = lit "b"
    /\ Task.content t <> trim (newTaskContent st_one).
Proof.
  eexists _, _. split; [reflexivity|]. split; [reflexivity|].
  split; [reflexivity|]. by vm_compute.
Qed.

(** ** Editing *)

(** C10. While a task is being edited, saving a buffer that trims to the
    empty string changes nothing at all: the board, the editing flag, the
    edited id and the buffer stay as they are. *)
Theorem handleSaveEdit_blank (st : State) :
  truthy (trim (editContent st)) = false ->
  handleSaveEdit st = st.
Proof.
  intros Hblank. unfold handleSaveEdit. rewrite Hblank.
  destruct (editTaskId st); [|done]. by rewrite andb_false_r.
Qed.

Lemma handleSaveEdit_blank_witness :
  let st := handleEditTask (lit "task-5") (lit "   ") st_one in
  isEditing st = true /\ editTaskId st = Some (lit "task-5")
  /\ handleSaveEdit st = st.
Proof.
  intros st. split; [reflexivity|]. split; [reflexivity|].
  exact (handleSaveEdit_blank st eq_refl).
Defined.

(** ** Deleting from the detail view *)

Lemma filter_has_id_none {A} (id_of : A -> jsstring) taskId (ts : list A) :
  Forall (fun t => id_of t <> taskId)
    (List.filter (fun t => negb (has_id id_of taskId t)) ts).
Proof.
  induction ts as [|t ts IH]; simpl; [done|].
  destruct (has_id id_of taskId t) eqn:Ht; simpl; [done|].
  constructor; [|done].
  unfold has_id, str_eqb in Ht. by apply bool_decide_eq_false in Ht.
Qed.

Lemma handleDeleteTask_gone taskId st :
  taskId ∉ task_ids (board (handleDeleteTask taskId st)).
Proof.
  unfold task_ids, all_tasks, board, handleDeleteTask, delete_from. simpl.
  induction (columns st) as [|c cs IH]; simpl; [apply not_elem_of_nil|].
  rewrite map_app, elem_of_app. intros [Hin|Hin]; [|done].
  pose proof (filter_has_id_none (id_at (heap st)) taskId (Column.tasks c))
    as Hnone.
  induction Hnone as [|r rs Hr _ IHr]; simpl in *.
  - by apply not_elem_of_nil in Hin.
  - apply elem_of_cons in Hin as [Heq|Hin]; [|by apply IHr].
    by apply Hr.
Qed.

(** C9. Whenever the detail view shows a task with its Delete button,
    pressing it leaves the view closed, with no task selected, and the
    board holds no task of that id any more. *)
Theorem onDeleteClick_closes (st : State) (task : ref) :
  view st = Viewing task ->
  let st' := onDeleteClick task st in
  view st' = Closed
  /\ isFullscreenViewOpen st' = false
  /\ selectedTask st' = None
  /\ Task.id (deref (heap st) task) ∉ task_ids (board st').
Proof.
  intros _. simpl. repeat split.
  apply (handleDeleteTask_gone _ st).
Qed.

Lemma onDeleteClick_closes_witness :
  view st_three = Viewing 1
  /\ view (onDeleteClick 1 st_three) = Closed
  /\ board (onDeleteClick 1 st_three) =
       [ Column.mk (lit "todo") (lit "To Do") [Task.mk (lit "task-5") (lit "a")];
         Column.mk (lit "doing") (lit "Doing") [Task.mk (lit "task-7") (lit "c")];
         Column.mk (lit "done") (lit "Done") [] ].
Proof.
  split; [reflexivity|].
  split; [exact (proj1 (onDeleteClick_closes st_three 1 eq_refl))|].
  reflexivity.
Defined.

(** ** The board under the column handlers

    What [onDrop] and [handleDeleteTask] do to the references of the state
    is what they do to the task values of the board. *)

Section Naturality.
Context {A B : Type} (f : A -> B).
Context (idA : A -> jsstring) (idB : B -> jsstring).
Hypothesis id_f : forall a, idB (f a) = idA a.

Lemma findIndex_map {X Y} (g : X -> Y) (p : X -> bool) (q : Y -> bool) l :
  (forall x, q (g x) = p x) ->
  findIndex q (List.map g l) = findIndex p l.
Proof.
  intros Hpq. induction l as [|x l IH]; simpl; [done|].
  by rewrite Hpq, IH.
Qed.

Lemma index_map {X Y} (g : X -> Y) (l : list X) i :
  index (List.map g l) i = option_map g (index l i).
Proof.
  unfold index. destruct (i <? 0)%Z; [done|].
  generalize (Z.to_nat i). clear i.
  induction l as [|x l IH]; intros [|n]; simpl; first [done | apply IH].
Qed.

Lemma find_map {X Y} (g : X -> Y) (p : X -> bool) (q : Y -> bool) l :
  (forall x, q (g x) = p x) ->
  List.find q (List.map g l) = option_map g (List.find p l).
Proof.
  intros Hpq. induction l as [|x l IH]; simpl; [done|].
  rewrite Hpq. by destruct (p x).
Qed.

Lemma existsb_map {X Y} (g : X -> Y) (p : X -> bool) (q : Y -> bool) l :
  (forall x, q (g x) = p x) ->
  existsb q (List.map g l) = existsb p l.
Proof.
  intros Hpq. induction l as [|x l IH]; simpl; [done|].
  by rewrite Hpq, IH.
Qed.

Lemma filter_map {X Y} (g : X -> Y) (p : X -> bool) (q : Y -> bool) l :
  (forall x, q (g x) = p x) ->
  List.filter q (List.map g l) = List.map g (List.filter p l).
Proof.
  intros Hpq. induction l as [|x l IH]; simpl; [done|].
  rewrite Hpq. destruct (p x); simpl; by rewrite IH.
Qed.

Lemma alter_map {X Y} (g : X -> Y) (h : X -> X) (k : Y -> Y) i l :
  (forall x, k (g x) = g (h x)) ->
  alter k i (List.map g l) = List.map g (alter h i l).
Proof.
  intros Hk. revert i.
  induction l as [|x l IH]; intros [|i]; simpl; try done.
  - by rewrite Hk.
  - f_equal. apply IH.
Qed.

Lemma has_id_map taskId a : has_id idB taskId (f a) = has_id idA taskId a.
Proof. unfold has_id. by rewrite id_f. Qed.

Lemma keep_others_map taskId c :
  keep_others idB taskId (column_map f c)
  = column_map f (keep_others idA taskId c).
Proof.
  unfold keep_others, column_map, Column.with_tasks. simpl. f_equal.
  apply filter_map. intros a. by rewrite has_id_map.
Qed.

Lemma push_task_map a c :
  push_task (f a) (column_map f c) = column_map f (push_task a c).
Proof.
  unfold push_task, column_map, Column.with_tasks. simpl.
  by rewrite map_app.
Qed.

Lemma delete_from_map taskId cols :
  delete_from idB taskId (List.map (column_map f) cols)
  = List.map (column_map f) (delete_from idA taskId cols).
Proof.
  unfold delete_from. rewrite !List.map_map.
  apply map_ext. intros c. apply keep_others_map.
Qed.

Lemma drop_on_map taskId columnId cols :
  drop_on idB taskId columnId (List.map (column_map f) cols)
  = Result_map (option_map (List.map (column_map f)))
      (drop_on idA taskId columnId cols).
Proof.
  unfold drop_on, find_pos.
  rewrite (findIndex_map (column_map f)
             (fun col => str_eqb (Column.id col) columnId)) by done.
  destruct (findIndex (fun col => str_eqb (Column.id col) columnId) cols <? 0)%Z;
    [done|].
  rewrite (findIndex_map (column_map f)
             (fun col => existsb (has_id idA taskId) (Column.tasks col))).
  2:{ intros c. simpl. apply existsb_map, has_id_map. }
  rewrite index_map.
  destruct (index cols _) as [src|]; simpl; [|done].
  rewrite (find_map f (has_id idA taskId)) by apply has_id_map.
  destruct (List.find _ (Column.tasks src)) as [task|]; simpl; [|done].
  do 2 f_equal.
  rewrite <- (alter_map (column_map f) (push_task task) (push_task (f task)))
    by (intros c; apply push_task_map).
  f_equal. apply alter_map. intros c. apply keep_others_map.
Qed.
End Naturality.

Lemma onDrop_board taskId columnId st :
  Result_map board (onDrop taskId columnId st)
  = drop_board taskId columnId (board st).
Proof.
  unfold onDrop, drop_board, board.
  rewrite (drop_on_map (deref (heap st)) (id_at (heap st)) Task.id) by done.
  by destruct (drop_on (id_at (heap st)) taskId columnId (columns st))
    as [[cols|]|e].
Qed.

Lemma handleDeleteTask_board taskId st :
  board (handleDeleteTask taskId st) = delete_from Task.id taskId (board st).
Proof.
  unfold handleDeleteTask, board. simpl.
  by rewrite (delete_from_map (deref (heap st)) (id_at (heap st)) Task.id).
Qed.

(** ** Searching an array *)

Lemma findIndex_none {A} (p : A -> bool) l :
  Forall (fun x => p x = false) l -> findIndex p l = (-1)%Z.
Proof.
  induction 1 as [|x l Hx _ IH]; simpl; [done|].
  by rewrite Hx, IH.
Qed.

Lemma findIndex_first {A} (p : A -> bool) l1 x l2 :
  Forall (fun y => p y = false) l1 -> p x = true ->
  findIndex p (l1 ++ x :: l2) = Z.of_nat (length l1).
Proof.
  intros Hl1 Hx. induction Hl1 as [|y l1 Hy _ IH]; simpl.
  - by rewrite Hx.
  - rewrite Hy, IH. destruct (Z.ltb_spec (Z.of_nat (length l1)) 0); lia.
Qed.

(** [findIndex] either finds nothing or names the first hit. *)
Lemma findIndex_cases {A} (p : A -> bool) l :
  (findIndex p l = (-1)%Z /\ Forall (fun x => p x = false) l)
  \/ (exists l1 x l2, l = l1 ++ x :: l2
        /\ Forall (fun y => p y = false) l1 /\ p x = true
        /\ findIndex p l = Z.of_nat (length l1)).
Proof.
  induction l as [|x l IH]; simpl; [by left|].
  destruct (p x) eqn:Hx.
  - right. by exists [], x, l.
  - destruct IH as [[Hi Hall]|(l1 & y & l2 & -> & Hl1 & Hy & Hi)].
    + left. rewrite Hi. split; [done|]. by constructor.
    + right. exists (x :: l1), y, l2. rewrite Hi. simpl.
      repeat split; [by constructor|done|].
      destruct (Z.ltb_spec (Z.of_nat (length l1)) 0); lia.
Qed.

Lemma index_middle {A} (l1 : list A) x l2 :
  index (l1 ++ x :: l2) (Z.of_nat (length l1)) = Some x.
Proof.
  unfold index. destruct (Z.ltb_spec (Z.of_nat (length l1)) 0); [lia|].
  rewrite Nat2Z.id. apply list_lookup_middle. done.
Qed.

Lemma find_first {A} (p : A -> bool) l1 x l2 :
  Forall (fun y => p y = false) l1 -> p x = true ->
  List.find p (l1 ++ x :: l2) = Some x.
Proof.
  intros Hl1 Hx. induction Hl1 as [|y l1 Hy _ IH]; simpl.
  - by rewrite Hx.
  - by rewrite Hy.
Qed.

Lemma existsb_false {A} (p : A -> bool) l :
  existsb p l = false <-> Forall (fun x => p x = false) l.
Proof.
  induction l as [|x l IH]; simpl.
  - split; [constructor|done].
  - rewrite orb_false_iff, IH, Forall_cons. done.
Qed.

Lemma has_id_false {A} (id_of : A -> jsstring) taskId a :
  has_id id_of taskId a = false <-> id_of a <> taskId.
Proof. unfold has_id, str_eqb. apply bool_decide_eq_false. Qed.

Lemma has_id_true {A} (id_of : A -> jsstring) taskId a :
  has_id id_of taskId a = true <-> id_of a = taskId.
Proof. unfold has_id, str_eqb. apply bool_decide_eq_true. Qed.

Lemma str_eqb_false s t : str_eqb s t = false <-> s <> t.
Proof. apply bool_decide_eq_false. Qed.

Lemma str_eqb_true s t : str_eqb s t = true <-> s = t.
Proof. apply bool_decide_eq_true. Qed.

Lemma alter_middle {A} (g : A -> A) (l1 : list A) x l2 :
  alter g (length l1) (l1 ++ x :: l2) = l1 ++ g x :: l2.
Proof.
  induction l1 as [|y l1 IH]; simpl; [done|]. f_equal. apply IH.
Qed.

Lemma filter_all {A} (p : A -> bool) l :
  Forall (fun x => p x = true) l -> List.filter p l = l.
Proof.
  induction 1 as [|x l Hx _ IH]; simpl; [done|]. by rewrite Hx, IH.
Qed.

(** ** Moving a task *)

(** A drop on a column id that no column has returns at once. *)
Lemma drop_on_no_destination {A} (id_of : A -> jsstring) taskId columnId cols :
  Forall (fun col => Column.id col <> columnId) cols ->
  drop_on id_of taskId columnId cols = Ok None.
Proof.
  intros Hcols. unfold drop_on, find_pos.
  rewrite findIndex_none; [done|].
  eapply Forall_impl; [exact Hcols|]. intros col. apply str_eqb_false.
Qed.

(** A drop of an id that no task has, on a column that exists, reads
    [columns[-1].tasks]. *)
Lemma drop_on_unknown_task {A} (id_of : A -> jsstring) taskId columnId cols :
  Exists (fun col => Column.id col = columnId) cols ->
  Forall (fun col => Forall (fun t => id_of t <> taskId) (Column.tasks col))
         cols ->
  drop_on id_of taskId columnId cols = Throw TypeError.
Proof.
  intros Hdest Hnone. unfold drop_on, find_pos.
  destruct (findIndex_cases (fun col => str_eqb (Column.id col) columnId) cols)
    as [[_ Hall]|(l1 & x & l2 & -> & _ & _ & ->)].
  - exfalso. apply Exists_exists in Hdest as (col & Hin & Hid).
    rewrite Forall_forall in Hall. specialize (Hall col Hin).
    by apply str_eqb_false in Hall.
  - destruct (Z.ltb_spec (Z.of_nat (length l1)) 0); [lia|].
    rewrite findIndex_none; [done|].
    eapply Forall_impl; [exact Hnone|]. intros col Hcol. simpl in Hcol.
    apply existsb_false. eapply Forall_impl; [exact Hcol|].
    intros t. apply has_id_false.
Qed.

Lemma exists_split_first {A} (p : A -> bool) l :
  existsb p l = true ->
  exists l1 x l2, l = l1 ++ x :: l2
    /\ Forall (fun y => p y = false) l1 /\ p x = true.
Proof.
  intros Hex.
  destruct (findIndex_cases p l) as [[_ Hall]|(l1 & x & l2 & ? & ? & ? & _)].
  - apply existsb_false in Hall. congruence.
  - by exists l1, x, l2.
Qed.

(** The three ways [onDrop] can go: no column has the id dropped on; a
    column has it but no task has the id dragged; or the first column
    holding such a task gives up all its tasks of that id and the first of
    them lands at the end of the first column of the id dropped on. *)
Lemma drop_on_cases {A} (id_of : A -> jsstring) taskId columnId cols :
  (Forall (fun col => Column.id col <> columnId) cols
   /\ drop_on id_of taskId columnId cols = Ok None)
  \/ (Exists (fun col => Column.id col = columnId) cols
      /\ Forall (fun col => Forall (fun t => id_of t <> taskId)
                              (Column.tasks col)) cols
      /\ drop_on id_of taskId columnId cols = Throw TypeError)
  \/ (exists d pre src post l1 t l2,
        cols = pre ++ src :: post
        /\ Forall (fun col => Forall (fun t => id_of t <> taskId)
                                (Column.tasks col)) pre
        /\ Column.tasks src = l1 ++ t :: l2
        /\ Forall (fun t' => id_of t' <> taskId) l1
        /\ id_of t = taskId
        /\ find_pos (fun col => str_eqb (Column.id col) columnId) cols = Some d
        /\ d < length cols
        /\ drop_on id_of taskId columnId cols
           = Ok (Some (alter (push_task t) d
                         (pre ++ keep_others id_of taskId src :: post)))).
Proof.
  destruct (findIndex_cases (fun col => str_eqb (Column.id col) columnId) cols)
    as [[_ Hall]|(d1 & dc & d2 & Hdec & Hd1 & Hdc & Hd)].
  { left. assert (Hno : Forall (fun col => Column.id col <> columnId) cols).
    { eapply Forall_impl; [exact Hall|]. intros col. apply str_eqb_false. }
    split; [done|]. by apply drop_on_no_destination. }
  right.
  assert (Hdest : Exists (fun col => Column.id col = columnId) cols).
  { rewrite Hdec. apply Exists_app. right. apply Exists_cons_hd.
    by apply str_eqb_true. }
  destruct (findIndex_cases
              (fun col => existsb (has_id id_of taskId) (Column.tasks col)) cols)
    as [[_ Hall]|(pre & src & post & Hcols & Hpre & Hsrc & Hs)].
  { left. assert (Hno : Forall (fun col => Forall (fun t => id_of t <> taskId)
                                 (Column.tasks col)) cols).
    { eapply Forall_impl; [exact Hall|]. intros col Hcol. simpl in Hcol.
      apply existsb_false in Hcol. eapply Forall_impl; [exact Hcol|].
      intros t. apply has_id_false. }
    split; [done|]. split; [done|]. by apply drop_on_unknown_task. }
  right. apply exists_split_first in Hsrc as (l1 & t & l2 & Htasks & Hl1 & Ht).
  exists (length d1), pre, src, post, l1, t, l2.
  assert (Hpos : find_pos (fun col => str_eqb (Column.id col) columnId) cols
                 = Some (length d1)).
  { unfold find_pos. rewrite Hd.
    destruct (Z.ltb_spec (Z.of_nat (length d1)) 0); [lia|].
    by rewrite Nat2Z.id. }
  split; [done|]. split.
  { eapply Forall_impl; [exact Hpre|]. intros col Hcol. simpl in Hcol.
    apply existsb_false in Hcol. eapply Forall_impl; [exact Hcol|].
    intros t'. apply has_id_false. }
  split; [done|]. split.
  { eapply Forall_impl; [exact Hl1|]. intros t'. apply has_id_false. }
  split; [by apply has_id_true|]. split; [done|]. split.
  { rewrite Hdec, length_app. simpl. lia. }
  unfold drop_on. rewrite Hpos, Hs. rewrite Hcols at 1.
  rewrite index_middle, Htasks, find_first by done.
  rewrite Nat2Z.id. rewrite Hcols at 1. by rewrite alter_middle.
Qed.

(** ** Counting tasks *)

Lemma total_app b1 b2 : total (b1 ++ b2) = total b1 + total b2.
Proof.
  unfold total, all_tasks. by rewrite map_app, concat_app, length_app.
Qed.

Lemma total_cons c b : total (c :: b) = length (Column.tasks c) + total b.
Proof. unfold total, all_tasks. simpl. by rewrite length_app. Qed.

Lemma total_alter (g : Column.t Task.t -> Column.t Task.t) i b c :
  b !! i = Some c ->
  total (alter g i b) + length (Column.tasks c)
  = total b + length (Column.tasks (g c)).
Proof.
  intros Hi. apply list_elem_of_split_length in Hi as (l1 & l2 & -> & ->).
  rewrite alter_middle, !total_app, !total_cons. lia.
Qed.

Lemma filter_split_length {A} (p : A -> bool) l :
  length (List.filter p l) + length (List.filter (fun x => negb (p x)) l)
  = length l.
Proof.
  induction l as [|x l IH]; simpl; [done|].
  destruct (p x); simpl; lia.
Qed.

(** What a move does to the number of tasks: the source column loses every
    task of the id dragged, the destination column gains one. *)
Lemma drop_board_total taskId columnId b b' :
  drop_on Task.id taskId columnId b = Ok (Some b') ->
  exists src, src ∈ b
    /\ 1 <= count_id taskId (Column.tasks src)
    /\ total b' + count_id taskId (Column.tasks src) = total b + 1.
Proof.
  intros Hdrop.
  destruct (drop_on_cases Task.id taskId columnId b)
    as [[_ H]|[(_ & _ & H)|H]]; [congruence..|].
  destruct H as (d & pre & src & post & l1 & t & l2
                 & Hb & _ & Htasks & _ & Ht & _ & Hd & H).
  rewrite H in Hdrop. injection Hdrop as <-.
  exists src. split; [rewrite Hb; apply elem_of_app; right; apply elem_of_cons; by left|].
  assert (Hcount : 1 <= count_id taskId (Column.tasks src)).
  { unfold count_id. rewrite Htasks, List.filter_app, length_app. simpl.
    apply has_id_true in Ht. rewrite Ht. simpl. lia. }
  split; [done|].
  set (b1 := pre ++ keep_others Task.id taskId src :: post).
  assert (Hlen : length b1 = length b).
  { unfold b1. rewrite Hb, !length_app. done. }
  destruct (lookup_lt_is_Some_2 b1 d) as [c Hc]; [lia|].
  pose proof (total_alter (push_task t) d b1 c Hc) as Hpush.
  assert (Hkeep : total b1 + count_id taskId (Column.tasks src) = total b).
  { unfold b1. rewrite Hb, !total_app, !total_cons. unfold count_id. simpl.
    pose proof (filter_split_length (has_id Task.id taskId) (Column.tasks src)).
    lia. }
  assert (Hone : length (Column.tasks (push_task t c))
                 = length (Column.tasks c) + 1).
  { unfold push_task. simpl. by rewrite length_app. }
  lia.
Qed.

(** Where no column holds two tasks of the id dragged, the number of
    tasks is the same before and after [onDrop], whether it moves the task,
    returns early or raises. *)
Lemma onDrop_total_single_id (taskId columnId : jsstring) (st : State) :
  Forall (fun c => count_id taskId (Column.tasks c) <= 1) (board st) ->
  total (board (state_after (onDrop taskId columnId st) st))
  = total (board st).
Proof.
  intros Hone. pose proof (onDrop_board taskId columnId st) as Hb.
  unfold drop_board in Hb.
  destruct (onDrop taskId columnId st) as [st'|e]; simpl in *; [|done].
  destruct (drop_on Task.id taskId columnId (board st)) as [[b'|]|e] eqn:Hdrop;
    [|congruence..].
  injection Hb as ->.
  apply drop_board_total in Hdrop as (src & Hin & Hge & Htot).
  rewrite Forall_forall in Hone. specialize (Hone src Hin). lia.
Qed.

Lemma filter_others_middle {A} (id_of : A -> jsstring) taskId
    (l1 : list A) t l2 :
  Forall (fun t' => id_of t' <> taskId) (l1 ++ l2) -> id_of t = taskId ->
  List.filter (fun t' => negb (has_id id_of taskId t')) (l1 ++ t :: l2)
  = l1 ++ l2.
Proof.
  intros Hothers Ht. apply Forall_app in Hothers as [H1 H2].
  rewrite List.filter_app. simpl.
  apply has_id_true in Ht. rewrite Ht. simpl.
  rewrite !filter_all; [done|..].
  - eapply Forall_impl; [exact H2|]. intros t' Ht'.
    apply has_id_false in Ht'. by rewrite Ht'.
  - eapply Forall_impl; [exact H1|]. intros t' Ht'.
    apply has_id_false in Ht'. by rewrite Ht'.
Qed.

(** A drop whose source column and first matching task are known. *)
Lemma drop_on_moves {A} (id_of : A -> jsstring) taskId columnId
    pre src post l1 t l2 d :
  Forall (fun col => Forall (fun t' => id_of t' <> taskId) (Column.tasks col))
         pre ->
  Column.tasks src = l1 ++ t :: l2 ->
  Forall (fun t' => id_of t' <> taskId) l1 ->
  id_of t = taskId ->
  find_pos (fun col => str_eqb (Column.id col) columnId) (pre ++ src :: post)
  = Some d ->
  drop_on id_of taskId columnId (pre ++ src :: post)
  = Ok (Some (alter (push_task t) d
                (pre ++ keep_others id_of taskId src :: post))).
Proof.
  intros Hpre Htasks Hl1 Ht Hd. unfold drop_on. rewrite Hd.
  assert (Hl1' : Forall (fun t' => has_id id_of taskId t' = false) l1).
  { eapply Forall_impl; [exact Hl1|]. intros t'. apply has_id_false. }
  apply has_id_true in Ht.
  rewrite findIndex_first.
  - rewrite index_middle, Htasks, find_first by done.
    by rewrite Nat2Z.id, alter_middle.
  - eapply Forall_impl; [exact Hpre|]. intros col Hcol. simpl.
    apply existsb_false. eapply Forall_impl; [exact Hcol|].
    intros t'. apply has_id_false.
  - rewrite Htasks, existsb_app. simpl. rewrite Ht.
    by rewrite orb_true_r.
Qed.

(** Let a column hold the task [t], the only task of its id in that
    column, no earlier column holding a task of that id nor having this
    column's id: dropping [t] on its own column takes it out of its place
    and puts it at the end of that column. *)
Lemma onDrop_same_column_first (st : State) (pre post : Board)
    (c : Column.t Task.t) (l1 l2 : list Task.t) (t : Task.t) :
  board st = pre ++ c :: post ->
  Column.tasks c = l1 ++ t :: l2 ->
  Forall (fun t' => Task.id t' <> Task.id t) (l1 ++ l2) ->
  Forall (fun col => Forall (fun t' => Task.id t' <> Task.id t)
                            (Column.tasks col)) pre ->
  Forall (fun col => Column.id col <> Column.id c) pre ->
  exists st',
    onDrop (Task.id t) (Column.id c) st = Ok st'
    /\ board st' = pre ++ Column.with_tasks c (l1 ++ l2 ++ [t]) :: post.
Proof.
  intros Hb Htasks Hothers Hpre Hids.
  pose proof (onDrop_board (Task.id t) (Column.id c) st) as Hdrop.
  unfold drop_board in Hdrop. rewrite Hb in Hdrop.
  rewrite (drop_on_moves Task.id _ _ pre c post l1 t l2 (length pre))
    in Hdrop; try done.
  - destruct (onDrop (Task.id t) (Column.id c) st) as [st'|e]; [|done].
    simpl in Hdrop. injection Hdrop as Hdrop. exists st'. split; [done|].
    rewrite Hdrop, alter_middle. do 2 f_equal.
    unfold push_task, keep_others, Column.with_tasks. simpl.
    rewrite Htasks, filter_others_middle by done.
    by rewrite app_assoc.
  - by apply Forall_app in Hothers as [H1 _].
  - unfold find_pos. rewrite findIndex_first.
    + destruct (Z.ltb_spec (Z.of_nat (length pre)) 0); [lia|].
      by rewrite Nat2Z.id.
    + eapply Forall_impl; [exact Hids|]. intros col. apply str_eqb_false.
    + by apply str_eqb_true.
Qed.

(** C3 fails in the code: with a column to drop on and no task of the id
    dragged, [columns[sourceColumnIndex]] is [columns[-1]] and reading its
    [tasks] raises; only the unknown column id returns quietly. *)
Theorem onDrop_unknown_task_raises :
  onDrop (lit "task-404") (lit "todo") initialState = Throw TypeError
  /\ onDrop (lit "task-5") (lit "todo") (handleDeleteTask (lit "task-5") st_one)
     = Throw TypeError
  /\ onDrop (lit "task-404") (lit "nowhere") initialState = Ok initialState.
Proof. split; [reflexivity|]. split; reflexivity. Qed.

(** C1 fails in the code: two tasks made at the same clock value get the
    same id. *)
Theorem handleCreateTask_same_clock_same_id :
  exists st1 st2,
    handleCreateTask 1730000000000 (handleInputChange (lit "a") initialState)
    = Ok st1
    /\ handleCreateTask 1730000000000 (handleInputChange (lit "b") st1) = Ok st2
    /\ task_ids (board st2)
       = [lit "task-1730000000000"; lit "task-1730000000000"]
    /\ ~ NoDup (task_ids (board st2)).
Proof.
  eexists _, _. split; [reflexivity|]. split; [reflexivity|].
  split; [reflexivity|].
  intros Hnd. apply NoDup_cons in Hnd as [Hnotin _].
  apply Hnotin. vm_compute. left.
Qed.

(** ** Saving an edit *)

Lemma set_content_length buf r h : length (set_content buf r h) = length h.
Proof. apply length_alter. Qed.

Lemma deref_set_content_eq buf r h :
  r < length h ->
  deref (set_content buf r h) r = Task.mk (Task.id (deref h r)) buf.
Proof.
  intros Hr. unfold deref, set_content.
  by rewrite list_lookup_total_alter_eq.
Qed.

Lemma deref_set_content_ne buf r r' h :
  r <> r' -> deref (set_content buf r h) r' = deref h r'.
Proof.
  intros Hne. unfold deref, set_content.
  by rewrite list_lookup_total_alter_ne.
Qed.

Lemma map_deref_set_content buf r h rs :
  r ∉ rs -> List.map (deref (set_content buf r h)) rs = List.map (deref h) rs.
Proof.
  induction rs as [|x rs IH]; simpl; [done|].
  rewrite not_elem_of_cons. intros [Hne Hnotin].
  by rewrite deref_set_content_ne, IH.
Qed.

Lemma edit_first_none tid buf ts :
  Forall (fun t => has_id Task.id tid t = false) ts ->
  edit_first tid buf ts = ts.
Proof.
  induction 1 as [|t ts Ht _ IH]; simpl; [done|]. by rewrite Ht, IH.
Qed.

Lemma edit_first_middle tid buf l1 t l2 :
  Forall (fun t' => has_id Task.id tid t' = false) l1 ->
  has_id Task.id tid t = true ->
  edit_first tid buf (l1 ++ t :: l2) = l1 ++ Task.mk (Task.id t) buf :: l2.
Proof.
  intros Hl1 Ht. induction Hl1 as [|t' l1 Ht' _ IH]; simpl.
  - by rewrite Ht.
  - by rewrite Ht', IH.
Qed.

Lemma save_in_column_length tid buf h c :
  length (save_in_column tid buf h c) = length h.
Proof.
  unfold save_in_column. destruct (_ =? _)%Z; [done|].
  destruct (index _ _); [apply set_content_length|done].
Qed.

(** One step of the [forEach] leaves alone every object that is not in
    the column. *)
Lemma save_in_column_frame tid buf h c r :
  r ∉ Column.tasks c -> deref (save_in_column tid buf h c) r = deref h r.
Proof.
  intros Hr. unfold save_in_column.
  destruct (findIndex_cases (has_id (id_at h) tid) (Column.tasks c))
    as [[-> _]|(l1 & x & l2 & Hts & _ & _ & ->)]; [done|].
  destruct (Z.eqb_spec (Z.of_nat (length l1)) (-1)); [done|].
  rewrite Hts at 1. rewrite index_middle.
  apply deref_set_content_ne. intros ->.
  apply Hr. rewrite Hts. apply elem_of_app. right. by left.
Qed.

(** One step of the [forEach], read on the column it visits. *)
Lemma save_in_column_read tid buf h c :
  NoDup (Column.tasks c) ->
  Forall (fun r => r < length h) (Column.tasks c) ->
  List.map (deref (save_in_column tid buf h c)) (Column.tasks c)
  = edit_first tid buf (List.map (deref h) (Column.tasks c)).
Proof.
  intros Hnd Hb. unfold save_in_column.
  destruct (findIndex_cases (has_id (id_at h) tid) (Column.tasks c))
    as [[-> Hall]|(l1 & x & l2 & Hts & Hl1 & Hx & ->)].
  - simpl. rewrite edit_first_none; [done|].
    apply Forall_forall. intros t Hin.
    apply list_elem_of_In, in_map_iff in Hin as (r & <- & Hin).
    rewrite Forall_forall in Hall. apply Hall. by apply list_elem_of_In.
  - destruct (Z.eqb_spec (Z.of_nat (length l1)) (-1)); [lia|].
    rewrite Hts at 1. rewrite index_middle. rewrite Hts in *.
    apply NoDup_app in Hnd as (Hnd1 & Hdisj & Hnd2).
    apply NoDup_cons in Hnd2 as [Hx2 _].
    assert (Hx1 : x ∉ l1).
    { intros Hin. apply (Hdisj x Hin). by left. }
    apply Forall_app in Hb as [_ Hb]. apply Forall_cons in Hb as [Hxb _].
    rewrite !map_app. simpl.
    rewrite !map_deref_set_content, deref_set_content_eq by done.
    rewrite edit_first_middle; [done| |done].
    apply Forall_forall. intros t Hin.
    apply list_elem_of_In, in_map_iff in Hin as (r & <- & Hin).
    rewrite Forall_forall in Hl1. apply Hl1. by apply list_elem_of_In.
Qed.

Lemma save_fold_length tid buf cols h :
  length (fold_left (save_in_column tid buf) cols h) = length h.
Proof.
  revert h. induction cols as [|c cols IH]; intros h; simpl; [done|].
  by rewrite IH, save_in_column_length.
Qed.

Lemma save_fold_frame tid buf cols h r :
  r ∉ refs cols ->
  deref (fold_left (save_in_column tid buf) cols h) r = deref h r.
Proof.
  revert h. induction cols as [|c cols IH]; intros h Hr; simpl; [done|].
  rewrite refs_cons, not_elem_of_app in Hr. destruct Hr as [Hc Hcols].
  by rewrite IH, save_in_column_frame.
Qed.

Lemma map_deref_ext h h' rs :
  (forall r, r ∈ rs -> deref h' r = deref h r) ->
  List.map (deref h') rs = List.map (deref h) rs.
Proof.
  intros Hext. apply map_ext_in. intros r Hr. apply Hext.
  by apply list_elem_of_In.
Qed.

Lemma elem_of_refs r c cols :
  c ∈ cols -> r ∈ Column.tasks c -> r ∈ refs cols.
Proof.
  intros Hc Hr. unfold refs. apply list_elem_of_In, in_concat.
  exists (Column.tasks c). split; [|by apply list_elem_of_In].
  apply in_map. by apply list_elem_of_In.
Qed.

(** The whole [forEach], read on the board. *)
Lemma save_fold_read tid buf cols h :
  NoDup (refs cols) ->
  Forall (fun r => r < length h) (refs cols) ->
  List.map (read_column (fold_left (save_in_column tid buf) cols h)) cols
  = edit_board tid buf (List.map (read_column h) cols).
Proof.
  revert h. induction cols as [|c cols IH]; intros h Hnd Hb; simpl; [done|].
  rewrite refs_cons in Hnd, Hb.
  apply NoDup_app in Hnd as (Hndc & Hdisj & Hndcols).
  apply Forall_app in Hb as [Hbc Hbcols].
  set (h1 := save_in_column tid buf h c).
  f_equal.
  - unfold read_column, Column.with_tasks. simpl. f_equal.
    rewrite <- (save_in_column_read tid buf h c) by done.
    apply map_deref_ext. intros r Hr.
    apply save_fold_frame. intros Hin. by apply (Hdisj r).
  - rewrite IH; [|done|].
    + unfold edit_board. f_equal. apply map_ext_in. intros c' Hc'.
      unfold read_column, Column.with_tasks. f_equal.
      apply map_deref_ext. intros r Hr.
      apply save_in_column_frame. intros Hin. apply (Hdisj r Hin).
      eapply elem_of_refs; [|exact Hr]. by apply list_elem_of_In.
    + unfold h1. rewrite save_in_column_length. done.
Qed.

Lemma handleSaveEdit_board st tid :
  wf st ->
  editTaskId st = Some tid -> tid <> [] ->
  truthy (trim (editContent st)) = true ->
  board (handleSaveEdit st) = edit_board tid (editContent st) (board st).
Proof.
  intros (Hb & Hnd & _) Htid Hne Hbuf. unfold handleSaveEdit.
  rewrite Htid, Hbuf. destruct tid; [done|]. simpl.
  unfold board. simpl. by apply save_fold_read.
Qed.

(** C5, as the code has it. With no id being edited (none, or the empty
    string) or with a buffer that trims to the empty string, saving leaves
    the state as it is. Otherwise, in every column the first task of the
    edited id gets the buffer for content, as it was typed (it is not
    trimmed), and the editing cells are reset. *)
Theorem handleSaveEdit_spec (st : State) :
  wf st ->
  (editTaskId st = None \/ editTaskId st = Some []
   \/ truthy (trim (editContent st)) = false ->
   handleSaveEdit st = st)
  /\ (forall tid,
        editTaskId st = Some tid -> tid <> [] ->
        truthy (trim (editContent st)) = true ->
        board (handleSaveEdit st) = edit_board tid (editContent st) (board st)
        /\ isEditing (handleSaveEdit st) = false
        /\ editTaskId (handleSaveEdit st) = None
        /\ editContent (handleSaveEdit st) = []).
Proof.
  intros Hwf. split.
  - intros [Hid|[Hid|Hbuf]].
    + unfold handleSaveEdit. by rewrite Hid.
    + unfold handleSaveEdit. by rewrite Hid.
    + unfold handleSaveEdit. destruct (editTaskId st); [|done].
      by rewrite Hbuf, andb_false_r.
  - intros tid Htid Hne Hbuf.
    split; [by apply handleSaveEdit_board|].
    unfold handleSaveEdit. rewrite Htid, Hbuf. by destruct tid.
Qed.

Lemma handleSaveEdit_spec_witness :
  let st := handleEditTask (lit "task-6") (lit " b2 ") st_three in
  wf st
  /\ board (handleSaveEdit st) =
       [ Column.mk (lit "todo") (lit "To Do")
           [Task.mk (lit "task-5") (lit "a"); Task.mk (lit "task-6") (lit " b2 ")];
         Column.mk (lit "doing") (lit "Doing") [Task.mk (lit "task-7") (lit "c")];
         Column.mk (lit "done") (lit "Done") [] ]
  /\ isEditing (handleSaveEdit st) = false.
Proof.
  intros st.
  assert (Hwf : wf st).
  { by apply (bool_decide_unpack _); vm_compute. }
  split; [exact Hwf|].
  pose proof (proj2 (handleSaveEdit_spec st Hwf) (lit "task-6") eq_refl
                ltac:(discriminate) eq_refl) as (Hboard & Hedit & _).
  split; [exact Hboard|exact Hedit].
Defined.

(** C5 as worded fails: saving the buffer [" b2 "] stores [" b2 "], which
    is not the trimmed text. *)
Lemma handleSaveEdit_content_untrimmed :
  let st := handleEditTask (lit "task-6") (lit " b2 ") st_three in
  trim (editContent st) = lit "b2"
  /\ exists t,
       all_tasks (board (handleSaveEdit st)) !! 1 = Some t
       /\ Task.id t = lit "task-6"
       /\ Task.content t <> trim (editContent st).
Proof.
  intros st. split; [reflexivity|]. eexists. split; [reflexivity|].
  split; [reflexivity|]. by vm_compute.
Qed.

(** ** Strings written and read back *)

Section Quote.
Local Open Scope N_scope.

Lemma hex_val_digit d : d < 16 -> hex_val (hex_digit d) = Some d.
Proof.
  intros Hd. unfold hex_digit, hex_val, is_digit.
  destruct (N.ltb_spec d 10).
  - replace ((48 <=? 48 + d) && (48 + d <=? 57)) with true.
    + f_equal. lia.
    + symmetry. apply andb_true_iff. split; apply N.leb_le; lia.
  - replace ((48 <=? 87 + d) && (87 + d <=? 57)) with false.
    + replace ((97 <=? 87 + d) && (87 + d <=? 102)) with true.
      * f_equal. lia.
      * symmetry. apply andb_true_iff. split; apply N.leb_le; lia.
    + symmetry. apply andb_false_iff. right. apply N.leb_gt. lia.
Qed.

(** A [\uXXXX] escape reads back as the code unit it was written for. *)
Lemma parse_chars_unicode_escape c t :
  c < 65536 ->
  parse_chars (unicode_escape c ++ t) = cons_unit c (parse_chars t).
Proof.
  intros Hc. unfold unicode_escape.
  change (parse_chars ([backslash; ch "u"; hex_digit (c / 4096 mod 16);
                        hex_digit (c / 256 mod 16); hex_digit (c / 16 mod 16);
                        hex_digit (c mod 16)] ++ t))
    with (match hex4 (hex_digit (c / 4096 mod 16)) (hex_digit (c / 256 mod 16))
                     (hex_digit (c / 16 mod 16)) (hex_digit (c mod 16)) with
          | Some u => cons_unit u (parse_chars t)
          | None => None
          end).
  unfold hex4. rewrite !hex_val_digit by (apply N.mod_lt; lia).
  do 2 f_equal. zify. Z.to_euclidean_division_equations. lia.
Qed.

Lemma parse_chars_raw c t :
  c <> dquote -> c <> backslash -> 32 <= c ->
  parse_chars (c :: t) = cons_unit c (parse_chars t).
Proof.
  intros Hq Hb Hc. simpl.
  destruct (N.eqb_spec c dquote); [done|].
  destruct (N.eqb_spec c backslash); [done|].
  destruct (N.ltb_spec c 32); [lia|done].
Qed.

Lemma is_lead_bounds c : is_lead c = true -> 55296 <= c <= 56319.
Proof.
  unfold is_lead. intros [H1 H2]%andb_true_iff.
  apply N.leb_le in H1, H2. lia.
Qed.

Lemma is_trail_bounds c : is_trail c = true -> 56320 <= c <= 57343.
Proof.
  unfold is_trail. intros [H1 H2]%andb_true_iff.
  apply N.leb_le in H1, H2. lia.
Qed.

Lemma parse_chars_escape_unit c t :
  parse_chars (escape_unit c ++ t) = cons_unit c (parse_chars t).
Proof.
  unfold escape_unit.
  destruct (N.eqb_spec c 8) as [->|H8]; [done|].
  destruct (N.eqb_spec c 9) as [->|H9]; [done|].
  destruct (N.eqb_spec c 10) as [->|H10]; [done|].
  destruct (N.eqb_spec c 12) as [->|H12]; [done|].
  destruct (N.eqb_spec c 13) as [->|H13]; [done|].
  destruct (N.eqb_spec c dquote) as [->|Hq]; [done|].
  destruct (N.eqb_spec c backslash) as [->|Hb]; [done|].
  destruct ((c <? 32) || is_trail c) eqn:Hesc.
  - apply parse_chars_unicode_escape.
    apply orb_true_iff in Hesc as [Hlt|Htrail].
    + apply N.ltb_lt in Hlt. lia.
    + apply is_trail_bounds in Htrail. lia.
  - apply orb_false_iff in Hesc as [Hge _]. apply N.ltb_ge in Hge.
    by apply parse_chars_raw.
Qed.

(** What [QuoteJSONString] writes between the quotes reads back as the
    string, whatever its code units, up to the closing quote. *)
Lemma parse_chars_quote_units s rest :
  parse_chars (quote_units s ++ dquote :: rest) = Some (s, rest).
Proof.
  remember (length s) as n eqn:Hn.
  revert s Hn. induction n as [n IH] using lt_wf_ind. intros s ->.
  destruct s as [|c r]; [done|]. cbn [quote_units].
  destruct (is_lead c) eqn:Hlead.
  - apply is_lead_bounds in Hlead.
    destruct r as [|d r'].
    + rewrite parse_chars_unicode_escape by lia. done.
    + destruct (is_trail d) eqn:Htrail.
      * apply is_trail_bounds in Htrail.
        change ((c :: d :: quote_units r') ++ dquote :: rest)
          with (c :: d :: (quote_units r' ++ dquote :: rest)).
        rewrite !parse_chars_raw by (unfold dquote, backslash; lia).
        rewrite (IH (length r')) by (simpl; lia || done). done.
      * rewrite <- app_assoc, parse_chars_unicode_escape by lia.
        rewrite (IH (length (d :: r'))) by (simpl; lia || done). done.
  - rewrite <- app_assoc, parse_chars_escape_unit.
    rewrite (IH (length r)) by (simpl; lia || done). done.
Qed.

Lemma parse_value_quoted fuel s rest :
  parse_value (S fuel) (QuoteJSONString s ++ rest) = Parsed (JString s) rest.
Proof.
  unfold QuoteJSONString.
  change (parse_value (S fuel) ((dquote :: quote_units s ++ [dquote]) ++ rest))
    with (match parse_chars ((quote_units s ++ [dquote]) ++ rest) with
          | Some (str, rest') => Parsed (JString str) rest'
          | None => Failed
          end).
  rewrite <- app_assoc. change ([dquote] ++ rest) with (dquote :: rest).
  by rewrite parse_chars_quote_units.
Qed.

End Quote.

(** ** The parser and its fuel *)

Section Fuel.

Lemma skip_ws_length s : length (skip_ws s) <= length s.
Proof.
  induction s as [|c r IH]; simpl; [done|].
  destruct (is_ws c); simpl; lia.
Qed.

Lemma skip_ws_cons s c r : skip_ws s = c :: r -> length r < length s.
Proof.
  intros H. pose proof (skip_ws_length s) as Hle.
  rewrite H in Hle. simpl in Hle. lia.
Qed.

Lemma cons_unit_Some c o str r :
  cons_unit c o = Some (str, r) ->
  exists str', o = Some (str', r) /\ str = c :: str'.
Proof.
  destruct o as [[str' r']|]; simpl; [|done].
  intros [= <- <-]. by exists str'.
Qed.

Lemma parse_chars_shrinks s str r :
  parse_chars s = Some (str, r) -> length r < length s.
Proof.
  remember (length s) as n eqn:Hn.
  revert s str r Hn. induction n as [n IH] using lt_wf_ind.
  intros s str r -> H.
  destruct s as [|c s1]; [done|]. cbn [parse_chars] in H.
  destruct (c =? dquote)%N.
  { simplify_eq. simpl. lia. }
  destruct (c =? backslash)%N.
  - destruct s1 as [|e s2]; [done|].
    destruct (e =? ch "u")%N.
    + destruct s2 as [|h3 [|h2 [|h1 [|h0 s3]]]]; try done.
      destruct (hex4 h3 h2 h1 h0); [|done].
      apply cons_unit_Some in H as (str' & H & _).
      eapply (IH (length s3)) in H; simpl in *; lia || done.
    + destruct (unescape e); [|done].
      apply cons_unit_Some in H as (str' & H & _).
      eapply (IH (length s2)) in H; simpl in *; lia || done.
  - destruct (c <? 32)%N; [done|].
    apply cons_unit_Some in H as (str' & H & _).
    eapply (IH (length s1)) in H; simpl in *; lia || done.
Qed.

Lemma digits_length s ds r : digits s = (ds, r) -> length r <= length s.
Proof.
  revert ds r. induction s as [|c s IH]; intros ds r; simpl.
  - intros [= <- <-]. done.
  - destruct (is_digit c).
    + destruct (digits s) as [ds' r'] eqn:Hd. intros [= <- <-].
      specialize (IH _ _ eq_refl). lia.
    + intros [= <- <-]. done.
Qed.

Lemma scan_int_shrinks s i r : scan_int s = Some (i, r) -> length r < length s.
Proof.
  destruct s as [|c s]; simpl; [done|].
  destruct (c =? ch "0")%N; [intros [= <- <-]; simpl; lia|].
  destruct (is_digit c); [|done].
  destruct (digits s) as [ds r'] eqn:Hd. simpl. intros [= <- <-].
  apply digits_length in Hd. simpl. lia.
Qed.

Lemma scan_frac_length s f r : scan_frac s = Some (f, r) -> length r <= length s.
Proof.
  destruct s as [|c s]; simpl; [by intros [= <- <-]|].
  destruct (c =? ch ".")%N; [|by intros [= <- <-]].
  destruct (digits s) as [[|d ds] r'] eqn:Hd; [done|]. intros [= <- <-].
  apply digits_length in Hd. simpl. lia.
Qed.

Lemma scan_exp_length s e r : scan_exp s = Some (e, r) -> length r <= length s.
Proof.
  destruct s as [|c s]; simpl; [by intros [= <- <-]|].
  destruct ((c =? ch "e")%N || (c =? ch "E")%N); [|by intros [= <- <-]].
  destruct s as [|d s1].
  - simpl. done.
  - destruct ((d =? ch "+")%N || (d =? ch "-")%N).
    + destruct (digits s1) as [[|x ds] r'] eqn:Hd; [done|]. intros [= <- <-].
      apply digits_length in Hd. simpl. lia.
    + destruct (digits (d :: s1)) as [[|x ds] r'] eqn:Hd; [done|].
      intros [= <- <-]. apply digits_length in Hd. simpl in *. lia.
Qed.

Lemma parse_number_shrinks s n r :
  parse_number s = Some (n, r) -> length r < length s.
Proof.
  unfold parse_number.
  destruct (scan_sign s) as [sign s1] eqn:Hsign.
  assert (Hs1 : length s1 <= length s).
  { destruct s as [|c s]; simpl in Hsign; [by simplify_eq|].
    destruct (c =? ch "-")%N; simplify_eq; simpl; lia. }
  destruct (scan_int s1) as [[i s2]|] eqn:Hint; [|done].
  destruct (scan_frac s2) as [[f s3]|] eqn:Hfrac; [|done].
  destruct (scan_exp s3) as [[e s4]|] eqn:Hexp; [|done].
  intros [= <- <-].
  apply scan_int_shrinks in Hint. apply scan_frac_length in Hfrac.
  apply scan_exp_length in Hexp. lia.
Qed.

Lemma strip_prefix_length p s r :
  strip_prefix p s = Some r -> length s = length p + length r.
Proof.
  revert s. induction p as [|a p IH]; intros s; simpl.
  - by intros [= ->].
  - destruct s as [|b s]; [done|].
    destruct (a =? b)%N; [|done]. intros H%IH. simpl. lia.
Qed.

Lemma parse_literal_shrinks : shrinks parse_literal.
Proof.
  intros s v r. unfold parse_literal.
  destruct (strip_prefix (lit "true") s) eqn:H1.
  { intros [= <- <-]. apply strip_prefix_length in H1. simpl in H1. lia. }
  destruct (strip_prefix (lit "false") s) eqn:H2.
  { intros [= <- <-]. apply strip_prefix_length in H2. simpl in H2. lia. }
  destruct (strip_prefix (lit "null") s) eqn:H3; [|done].
  intros [= <- <-]. apply strip_prefix_length in H3. simpl in H3. lia.
Qed.

Lemma outcome_map_Parsed {A B} (f : A -> B) o b r :
  outcome_map f o = Parsed b r -> exists a, o = Parsed a r /\ b = f a.
Proof. destruct o; simpl; [|done..]. intros [= <- <-]. eauto. Qed.

Lemma outcome_map_fuel {A B} (f : A -> B) o :
  outcome_map f o = OutOfFuel <-> o = OutOfFuel.
Proof. by destruct o. Qed.

Lemma value_with_shrinks pe pm :
  shrinks pe -> shrinks pm -> shrinks (value_with pe pm).
Proof.
  intros Hpe Hpm s v r. unfold value_with.
  destruct (skip_ws s) as [|c s1] eqn:Hs; [done|].
  apply skip_ws_cons in Hs.
  destruct (c =? ch "{")%N.
  { destruct (skip_ws s1) as [|c' s2] eqn:Hs1; [done|].
    apply skip_ws_cons in Hs1.
    destruct (c' =? ch "}")%N; [intros [= <- <-]; lia|].
    intros (ms & H%Hpm & _)%outcome_map_Parsed. simpl in H. lia. }
  destruct (c =? ch "[")%N.
  { destruct (skip_ws s1) as [|c' s2] eqn:Hs1; [done|].
    apply skip_ws_cons in Hs1.
    destruct (c' =? ch "]")%N; [intros [= <- <-]; lia|].
    intros (ms & H%Hpe & _)%outcome_map_Parsed. simpl in H. lia. }
  destruct (c =? dquote)%N.
  { destruct (parse_chars s1) as [[str rest]|] eqn:Hstr; [|done].
    intros [= <- <-]. apply parse_chars_shrinks in Hstr. lia. }
  destruct ((c =? ch "-")%N || is_digit c).
  { destruct (parse_number (c :: s1)) as [[n rest]|] eqn:Hn; [|done].
    intros [= <- <-]. apply parse_number_shrinks in Hn. simpl in Hn. lia. }
  intros H%parse_literal_shrinks. simpl in H. lia.
Qed.

Lemma elements_with_shrinks pv pe :
  shrinks pv -> shrinks pe -> shrinks (elements_with pv pe).
Proof.
  intros Hpv Hpe s vs r. unfold elements_with.
  destruct (pv s) as [v s1| |] eqn:Hv; [|done..]. apply Hpv in Hv.
  destruct (skip_ws s1) as [|c s2] eqn:Hs1; [done|].
  apply skip_ws_cons in Hs1.
  destruct (c =? ch ",")%N.
  { intros (x & H%Hpe & _)%outcome_map_Parsed. lia. }
  destruct (c =? ch "]")%N; [|done]. intros [= <- <-]. lia.
Qed.

Lemma members_with_shrinks pv pm :
  shrinks pv -> shrinks pm -> shrinks (members_with pv pm).
Proof.
  intros Hpv Hpm s ms r. unfold members_with.
  destruct (skip_ws s) as [|c s1] eqn:Hs; [done|].
  apply skip_ws_cons in Hs.
  destruct (c =? dquote)%N; [|done].
  destruct (parse_chars s1) as [[key s2]|] eqn:Hkey; [|done].
  apply parse_chars_shrinks in Hkey.
  destruct (skip_ws s2) as [|c1 s3] eqn:Hs2; [done|].
  apply skip_ws_cons in Hs2.
  destruct (c1 =? ch ":")%N; [|done].
  destruct (pv s3) as [v s4| |] eqn:Hv; [|done..]. apply Hpv in Hv.
  destruct (skip_ws s4) as [|c3 s5] eqn:Hs4; [done|].
  apply skip_ws_cons in Hs4.
  destruct (c3 =? ch ",")%N.
  { intros (x & H%Hpm & _)%outcome_map_Parsed. lia. }
  destruct (c3 =? ch "}")%N; [|done]. intros [= <- <-]. lia.
Qed.

Lemma parse_shrinks fuel :
  shrinks (parse_value fuel) /\ shrinks (parse_elements fuel)
  /\ shrinks (parse_members fuel).
Proof.
  induction fuel as [|fuel (IHv & IHe & IHm)].
  - by repeat split; intros s a r.
  - repeat split; simpl.
    + by apply value_with_shrinks.
    + by apply elements_with_shrinks.
    + by apply members_with_shrinks.
Qed.

Lemma value_with_total pe pm s :
  (forall s', length s' < length s -> pe s' <> OutOfFuel) ->
  (forall s', length s' < length s -> pm s' <> OutOfFuel) ->
  value_with pe pm s <> OutOfFuel.
Proof.
  intros Hpe Hpm. unfold value_with.
  destruct (skip_ws s) as [|c s1] eqn:Hs; [done|].
  apply skip_ws_cons in Hs.
  destruct (c =? ch "{")%N.
  { destruct (skip_ws s1) as [|c' s2] eqn:Hs1; [done|].
    apply skip_ws_cons in Hs1.
    destruct (c' =? ch "}")%N; [done|].
    rewrite outcome_map_fuel. apply Hpm. simpl. lia. }
  destruct (c =? ch "[")%N.
  { destruct (skip_ws s1) as [|c' s2] eqn:Hs1; [done|].
    apply skip_ws_cons in Hs1.
    destruct (c' =? ch "]")%N; [done|].
    rewrite outcome_map_fuel. apply Hpe. simpl. lia. }
  destruct (c =? dquote)%N.
  { by destruct (parse_chars s1) as [[str rest]|]. }
  destruct ((c =? ch "-")%N || is_digit c).
  { by destruct (parse_number (c :: s1)) as [[n rest]|]. }
  unfold parse_literal. by repeat case_match.
Qed.

Lemma elements_with_total pv pe s :
  shrinks pv -> pv s <> OutOfFuel ->
  (forall s', length s' + 2 <= length s -> pe s' <> OutOfFuel) ->
  elements_with pv pe s <> OutOfFuel.
Proof.
  intros Hshr Hpv Hpe. unfold elements_with.
  destruct (pv s) as [v s1| |] eqn:Hv; [|done..]. apply Hshr in Hv.
  destruct (skip_ws s1) as [|c s2] eqn:Hs1; [done|].
  apply skip_ws_cons in Hs1.
  destruct (c =? ch ",")%N.
  { rewrite outcome_map_fuel. apply Hpe. lia. }
  by destruct (c =? ch "]")%N.
Qed.

Lemma members_with_total pv pm s :
  shrinks pv ->
  (forall s', length s' < length s -> pv s' <> OutOfFuel) ->
  (forall s', length s' + 2 <= length s -> pm s' <> OutOfFuel) ->
  members_with pv pm s <> OutOfFuel.
Proof.
  intros Hshr Hpv Hpm. unfold members_with.
  destruct (skip_ws s) as [|c s1] eqn:Hs; [done|].
  apply skip_ws_cons in Hs.
  destruct (c =? dquote)%N; [|done].
  destruct (parse_chars s1) as [[key s2]|] eqn:Hkey; [|done].
  apply parse_chars_shrinks in Hkey.
  destruct (skip_ws s2) as [|c1 s3] eqn:Hs2; [done|].
  apply skip_ws_cons in Hs2.
  destruct (c1 =? ch ":")%N; [|done].
  destruct (pv s3) as [v s4| |] eqn:Hv; [|done|].
  - apply Hshr in Hv.
    destruct (skip_ws s4) as [|c3 s5] eqn:Hs4; [done|].
    apply skip_ws_cons in Hs4.
    destruct (c3 =? ch ",")%N.
    { rewrite outcome_map_fuel. apply Hpm. lia. }
    by destruct (c3 =? ch "}")%N.
  - exfalso. apply (Hpv s3); [lia|done].
Qed.

(** Twice the length of the text and one more is fuel enough. *)
Lemma parse_total fuel :
  (forall s, 2 * length s + 1 <= fuel -> parse_value fuel s <> OutOfFuel)
  /\ (forall s, 2 * length s + 2 <= fuel -> parse_elements fuel s <> OutOfFuel)
  /\ (forall s, 2 * length s + 2 <= fuel -> parse_members fuel s <> OutOfFuel).
Proof.
  induction fuel as [|fuel (IHv & IHe & IHm)].
  - repeat split; intros s Hs; lia.
  - destruct (parse_shrinks fuel) as (Hshr & _ & _).
    repeat split; intros s Hs; simpl.
    + apply value_with_total; intros s' Hs'; [apply IHe|apply IHm]; lia.
    + apply elements_with_total; [done|apply IHv; lia|].
      intros s' Hs'. apply IHe. lia.
    + apply members_with_total; [done| |].
      * intros s' Hs'. apply IHv. lia.
      * intros s' Hs'. apply IHm. lia.
Qed.

Lemma below_refl {A} (o : outcome A) : below o o.
Proof. by right. Qed.

Lemma below_map {A B} (f : A -> B) o o' :
  below o o' -> below (outcome_map f o) (outcome_map f o').
Proof. intros [->| ->]; [by left|by right]. Qed.

Lemma value_with_below pe pe' pm pm' s :
  (forall s', below (pe s') (pe' s')) ->
  (forall s', below (pm s') (pm' s')) ->
  below (value_with pe pm s) (value_with pe' pm' s).
Proof.
  intros Hpe Hpm. unfold value_with.
  destruct (skip_ws s) as [|c s1]; [apply below_refl|].
  destruct (c =? ch "{")%N.
  { destruct (skip_ws s1) as [|c' s2]; [apply below_refl|].
    destruct (c' =? ch "}")%N; [apply below_refl|]. apply below_map, Hpm. }
  destruct (c =? ch "[")%N.
  { destruct (skip_ws s1) as [|c' s2]; [apply below_refl|].
    destruct (c' =? ch "]")%N; [apply below_refl|]. apply below_map, Hpe. }
  apply below_refl.
Qed.

Lemma elements_with_below pv pv' pe pe' s :
  (forall s', below (pv s') (pv' s')) ->
  (forall s', below (pe s') (pe' s')) ->
  below (elements_with pv pe s) (elements_with pv' pe' s).
Proof.
  intros Hpv Hpe. unfold elements_with.
  destruct (Hpv s) as [->| <-]; [by left|].
  destruct (pv s) as [v s1| |]; [|apply below_refl..].
  destruct (skip_ws s1) as [|c s2]; [apply below_refl|].
  destruct (c =? ch ",")%N; [apply below_map, Hpe|apply below_refl].
Qed.

Lemma members_with_below pv pv' pm pm' s :
  (forall s', below (pv s') (pv' s')) ->
  (forall s', below (pm s') (pm' s')) ->
  below (members_with pv pm s) (members_with pv' pm' s).
Proof.
  intros Hpv Hpm. unfold members_with.
  destruct (skip_ws s) as [|c s1]; [apply below_refl|].
  destruct (c =? dquote)%N; [|apply below_refl].
  destruct (parse_chars s1) as [[key s2]|]; [|apply below_refl].
  destruct (skip_ws s2) as [|c1 s3]; [apply below_refl|].
  destruct (c1 =? ch ":")%N; [|apply below_refl].
  destruct (Hpv s3) as [->| <-]; [by left|].
  destruct (pv s3) as [v s4| |]; [|apply below_refl..].
  destruct (skip_ws s4) as [|c3 s5]; [apply below_refl|].
  destruct (c3 =? ch ",")%N; [apply below_map, Hpm|apply below_refl].
Qed.

Lemma parse_below_S fuel :
  (forall s, below (parse_value fuel s) (parse_value (S fuel) s))
  /\ (forall s, below (parse_elements fuel s) (parse_elements (S fuel) s))
  /\ (forall s, below (parse_members fuel s) (parse_members (S fuel) s)).
Proof.
  induction fuel as [|fuel (IHv & IHe & IHm)].
  - by repeat split; intros s; left.
  - repeat split; intros s.
    + by apply value_with_below.
    + by apply elements_with_below.
    + by apply members_with_below.
Qed.

(** More fuel does not change an outcome reached with less. *)
Lemma parse_value_more fuel fuel' s v r :
  fuel <= fuel' ->
  parse_value fuel s = Parsed v r -> parse_value fuel' s = Parsed v r.
Proof.
  induction 1 as [|fuel' _ IH]; [done|]. intros H.
  destruct (parse_below_S fuel') as (Hv & _ & _).
  destruct (Hv s) as [Hout|Heq]; [|rewrite <- Heq; by apply IH].
  rewrite (IH H) in Hout. done.
Qed.

(** A text that some fuel parses to a value and white space is parsed by
    [JSON.parse] to that value. *)
Lemma parse_of_fuel fuel text v rest :
  parse_value fuel text = Parsed v rest -> skip_ws rest = [] ->
  parse text = Ok v.
Proof.
  intros Hv Hrest. unfold parse.
  destruct (Nat.le_ge_cases fuel (2 * length text + 1)) as [Hle|Hge].
  - by rewrite (parse_value_more _ _ _ _ _ Hle Hv), Hrest.
  - destruct (parse_value (2 * length text + 1) text) as [v' rest'| |] eqn:Hstd.
    + rewrite (parse_value_more _ _ _ _ _ Hge Hstd) in Hv.
      injection Hv as -> ->. by rewrite Hrest.
    + assert (Hb : below (parse_value (2 * length text + 1) text)
                         (parse_value fuel text)).
      { clear Hv Hstd. induction Hge as [|fuel Hge IH]; [apply below_refl|].
        destruct IH as [IH|IH]; [by left|]. rewrite IH.
        apply (parse_below_S fuel). }
      rewrite Hstd, Hv in Hb. by destruct Hb.
    + exfalso. by apply (proj1 (parse_total (2 * length text + 1)) text).
Qed.

End Fuel.

(** ** A board written and read back *)

Section Members.
Context (pv : jsstring -> outcome value).
Context (pm : jsstring -> outcome (list (jsstring * value))).

Lemma members_with_more key tv v more :
  pv (tv ++ ch "," :: more) = Parsed v (ch "," :: more) ->
  members_with pv pm (QuoteJSONString key ++ ch ":" :: tv ++ ch "," :: more)
  = outcome_map (cons (key, v)) (pm more).
Proof.
  intros Hv. unfold members_with, QuoteJSONString.
  change (skip_ws ((dquote :: quote_units key ++ [dquote])
                   ++ ch ":" :: tv ++ ch "," :: more))
    with (dquote :: (quote_units key ++ [dquote])
                    ++ ch ":" :: tv ++ ch "," :: more).
  change (dquote =? dquote)%N with true. cbv iota.
  rewrite <- app_assoc.
  change ([dquote] ++ ch ":" :: tv ++ ch "," :: more)
    with (dquote :: ch ":" :: tv ++ ch "," :: more).
  rewrite parse_chars_quote_units.
  change (skip_ws (ch ":" :: tv ++ ch "," :: more))
    with (ch ":" :: tv ++ ch "," :: more).
  change (ch ":" =? ch ":")%N with true. cbv iota.
  rewrite Hv. reflexivity.
Qed.

Lemma members_with_last key tv v rest :
  pv (tv ++ ch "}" :: rest) = Parsed v (ch "}" :: rest) ->
  members_with pv pm (QuoteJSONString key ++ ch ":" :: tv ++ ch "}" :: rest)
  = Parsed [(key, v)] rest.
Proof.
  intros Hv. unfold members_with, QuoteJSONString.
  change (skip_ws ((dquote :: quote_units key ++ [dquote])
                   ++ ch ":" :: tv ++ ch "}" :: rest))
    with (dquote :: (quote_units key ++ [dquote])
                    ++ ch ":" :: tv ++ ch "}" :: rest).
  change (dquote =? dquote)%N with true. cbv iota.
  rewrite <- app_assoc.
  change ([dquote] ++ ch ":" :: tv ++ ch "}" :: rest)
    with (dquote :: ch ":" :: tv ++ ch "}" :: rest).
  rewrite parse_chars_quote_units.
  change (skip_ws (ch ":" :: tv ++ ch "}" :: rest))
    with (ch ":" :: tv ++ ch "}" :: rest).
  change (ch ":" =? ch ":")%N with true. cbv iota.
  rewrite Hv. reflexivity.
Qed.
End Members.

Lemma stringify_task_text t rest :
  stringify_task t ++ rest
  = ch "{" :: QuoteJSONString (lit "id") ++ ch ":"
      :: QuoteJSONString (Task.id t) ++ ch ","
      :: QuoteJSONString (lit "content") ++ ch ":"
      :: QuoteJSONString (Task.content t) ++ ch "}" :: rest.
Proof.
  unfold stringify_task, write_object.
  cbn [List.map join_comma fst snd].
  rewrite <- !app_comm_cons, <- !app_assoc.
  cbn [app]. reflexivity.
Qed.

Lemma parse_value_task fuel t rest :
  4 <= fuel ->
  parse_value fuel (stringify_task t ++ rest) = Parsed (json_of_task t) rest.
Proof.
  intros Hfuel. do 4 (destruct fuel as [|fuel]; [lia|]). clear Hfuel.
  rewrite stringify_task_text.
  change (parse_value (S (S (S (S fuel)))) (ch "{" :: ?s))
    with (outcome_map (fun ms => JObject (object_of ms))
            (parse_members (S (S (S fuel))) s)).
  change (parse_members (S (S (S fuel))) ?s)
    with (members_with (parse_value (S (S fuel))) (parse_members (S (S fuel))) s).
  rewrite (members_with_more _ _ _ _ (JString (Task.id t)))
    by apply parse_value_quoted.
  change (parse_members (S (S fuel)) ?s)
    with (members_with (parse_value (S fuel)) (parse_members (S fuel)) s).
  rewrite (members_with_last _ _ _ _ (JString (Task.content t)))
    by apply parse_value_quoted.
  reflexivity.
Qed.

Section Arrays.
Context {A : Type} (text : A -> jsstring) (val : A -> value).
Hypothesis text_brace : forall a, exists body, text a = ch "{" :: body.
Hypothesis text_parse : forall a, exists k, forall fuel rest,
  k <= fuel -> parse_value fuel (text a ++ rest) = Parsed (val a) rest.

Lemma parse_elements_join a l :
  exists k, forall fuel rest, k <= fuel ->
    parse_elements fuel (join_comma (List.map text (a :: l)) ++ ch "]" :: rest)
    = Parsed (List.map val (a :: l)) rest.
Proof.
  revert a. induction l as [|b l IH]; intros a.
  - destruct (text_parse a) as [k Hk]. exists (S k).
    intros fuel rest Hfuel. destruct fuel as [|fuel]; [lia|].
    cbn [List.map join_comma parse_elements]. unfold elements_with.
    rewrite Hk by lia. reflexivity.
  - destruct (text_parse a) as [k Hk]. destruct (IH b) as [k' Hk'].
    exists (S (k `max` k')). intros fuel rest Hfuel.
    destruct fuel as [|fuel]; [lia|].
    change (join_comma (List.map text (a :: b :: l)))
      with (text a ++ ch "," :: join_comma (List.map text (b :: l))).
    rewrite <- app_assoc.
    change ((ch "," :: join_comma (List.map text (b :: l))) ++ ch "]" :: rest)
      with (ch "," :: join_comma (List.map text (b :: l)) ++ ch "]" :: rest).
    cbn [parse_elements]. unfold elements_with.
    rewrite Hk by lia.
    change (skip_ws (ch "," :: ?s)) with (ch "," :: s).
    change (ch "," =? ch ",")%N with true. cbv iota.
    rewrite Hk' by lia. reflexivity.
Qed.

Lemma parse_value_array l :
  exists k, forall fuel rest, k <= fuel ->
    parse_value fuel (write_array (List.map text l) ++ rest)
    = Parsed (JArray (List.map val l)) rest.
Proof.
  destruct l as [|a l].
  - exists 1. intros fuel rest Hfuel. destruct fuel as [|fuel]; [lia|].
    reflexivity.
  - destruct (parse_elements_join a l) as [k Hk]. exists (S k).
    intros fuel rest Hfuel. destruct fuel as [|fuel]; [lia|].
    unfold write_array. rewrite <- app_comm_cons, <- app_assoc.
    change ([ch "]"] ++ rest) with (ch "]" :: rest).
    specialize (Hk fuel rest ltac:(lia)).
    assert (Hhead : exists body,
               join_comma (List.map text (a :: l)) ++ ch "]" :: rest
               = ch "{" :: body).
    { destruct (text_brace a) as [body Hbody].
      destruct l as [|b l]; cbn [List.map join_comma]; rewrite Hbody;
        eexists; reflexivity. }
    destruct Hhead as [body Hbody]. rewrite Hbody in *.
    change (parse_value (S fuel) (ch "[" :: ch "{" :: body))
      with (outcome_map JArray (parse_elements fuel (ch "{" :: body))).
    by rewrite Hk.
Qed.
End Arrays.

Lemma parse_value_tasks ts :
  exists k, forall fuel rest, k <= fuel ->
    parse_value fuel (write_array (List.map stringify_task ts) ++ rest)
    = Parsed (JArray (List.map json_of_task ts)) rest.
Proof.
  apply parse_value_array.
  - intros t. eexists. reflexivity.
  - intros t. exists 4. intros fuel rest. apply parse_value_task.
Qed.

Lemma stringify_column_text c rest :
  stringify_column c ++ rest
  = ch "{" :: QuoteJSONString (lit "id") ++ ch ":"
      :: QuoteJSONString (Column.id c) ++ ch ","
      :: QuoteJSONString (lit "title") ++ ch ":"
      :: QuoteJSONString (Column.title c) ++ ch ","
      :: QuoteJSONString (lit "tasks") ++ ch ":"
      :: write_array (List.map stringify_task (Column.tasks c))
         ++ ch "}" :: rest.
Proof.
  unfold stringify_column, write_object.
  cbn [List.map join_comma fst snd].
  repeat (rewrite <- app_assoc || rewrite <- app_comm_cons).
  reflexivity.
Qed.

Lemma parse_value_column c :
  exists k, forall fuel rest, k <= fuel ->
    parse_value fuel (stringify_column c ++ rest)
    = Parsed (json_of_column c) rest.
Proof.
  destruct (parse_value_tasks (Column.tasks c)) as [k Hk].
  exists (4 + k). intros fuel rest Hfuel.
  do 4 (destruct fuel as [|fuel]; [lia|]).
  rewrite stringify_column_text.
  change (parse_value (S (S (S (S fuel)))) (ch "{" :: ?s))
    with (outcome_map (fun ms => JObject (object_of ms))
            (parse_members (S (S (S fuel))) s)).
  change (parse_members (S (S (S fuel))) ?s)
    with (members_with (parse_value (S (S fuel))) (parse_members (S (S fuel))) s).
  rewrite (members_with_more _ _ _ _ (JString (Column.id c)))
    by apply parse_value_quoted.
  change (parse_members (S (S fuel)) ?s)
    with (members_with (parse_value (S fuel)) (parse_members (S fuel)) s).
  rewrite (members_with_more _ _ _ _ (JString (Column.title c)))
    by apply parse_value_quoted.
  change (parse_members (S fuel) ?s)
    with (members_with (parse_value fuel) (parse_members fuel) s).
  rewrite (members_with_last _ _ _ _
             (JArray (List.map json_of_task (Column.tasks c))))
    by (apply Hk; lia).
  reflexivity.
Qed.

(** [JSON.parse] reads what [JSON.stringify] wrote for a board. *)
Lemma parse_stringify b : parse (stringify b) = Ok (json_of_board b).
Proof.
  destruct (parse_value_array stringify_column json_of_column
              ltac:(intros c; eexists; reflexivity) parse_value_column b)
    as [k Hk].
  apply (parse_of_fuel k _ _ []); [|done].
  rewrite <- (app_nil_r (stringify b)) at 1. by apply Hk.
Qed.

Lemma all_some_map {A B} (f : A -> B) (g : B -> option A) l :
  (forall a, g (f a) = Some a) ->
  all_some (List.map g (List.map f l)) = Some l.
Proof.
  intros Hgf. induction l as [|a l IH]; simpl; [done|].
  by rewrite Hgf, IH.
Qed.

Lemma task_of_json_of_task t : task_of_json (json_of_task t) = Some t.
Proof. by destruct t. Qed.

Lemma column_of_json_of_column c : column_of_json (json_of_column c) = Some c.
Proof.
  destruct c as [i t ts]. unfold json_of_column, column_of_json.
  cbn [Column.id Column.title Column.tasks].
  rewrite (all_some_map json_of_task task_of_json) by apply task_of_json_of_task.
  reflexivity.
Qed.

Lemma board_of_json_of_board b : board_of_json (json_of_board b) = Some b.
Proof.
  unfold board_of_json, json_of_board.
  apply all_some_map, column_of_json_of_column.
Qed.

(** C7. Whatever the board, the text [JSON.stringify] writes for it is
    read by [JSON.parse] as the same board: the same columns in the same
    order, each with the same tasks, ids and contents, in the same order. *)
Theorem stringify_parse_roundtrip (b : Board) :
  exists v, parse (stringify b) = Ok v /\ board_of_json v = Some b.
Proof.
  exists (json_of_board b).
  split; [apply parse_stringify|apply board_of_json_of_board].
Qed.

(** ** Loading *)

Lemma stringify_truthy b : truthy (stringify b) = true.
Proof. reflexivity. Qed.

Lemma loadEffect_stringify b : loadEffect (Some (stringify b)) = Ok (Typed b).
Proof.
  unfold loadEffect. rewrite stringify_truthy, parse_stringify.
  by rewrite board_of_json_of_board.
Qed.

(** C2, as the code has it. With no stored value, or the empty string, the
    load effect keeps the default board. A stored text that [JSON.stringify]
    wrote for a board gives that board. A stored text that is not JSON
    makes [JSON.parse] raise a [SyntaxError], which the effect lets
    through: there is no fallback to the default board. Any JSON text is
    passed to [setColumns], of a board's shape or not. *)
Theorem loadEffect_spec (savedColumns : option jsstring) :
  (savedColumns = None \/ savedColumns = Some [] ->
   loadEffect savedColumns = Ok Kept)
  /\ (forall b, savedColumns = Some (stringify b) ->
      loadEffect savedColumns = Ok (Typed b))
  /\ (forall text, savedColumns = Some text -> text <> [] ->
      parse text = Throw SyntaxError ->
      loadEffect savedColumns = Throw SyntaxError)
  /\ (forall text v, savedColumns = Some text -> text <> [] ->
      parse text = Ok v ->
      loadEffect savedColumns
      = Ok (match board_of_json v with
            | Some b => Typed b
            | None => Untyped v
            end)).
Proof.
  split; [|split; [|split]].
  - by intros [-> | ->].
  - intros b ->. apply loadEffect_stringify.
  - intros text -> Hne Hparse. unfold loadEffect. rewrite Hparse.
    by destruct text.
  - intros text v -> Hne Hparse. unfold loadEffect. rewrite Hparse.
    by destruct text.
Qed.

Lemma loadEffect_spec_witness :
  loadEffect (Some (stringify (board st_three))) = Ok (Typed (board st_three))
  /\ loadEffect (Some (lit "{oops")) = Throw SyntaxError.
Proof.
  split.
  - exact (proj1 (proj2 (loadEffect_spec (Some (stringify (board st_three)))))
             (board st_three) eq_refl).
  - exact (proj1 (proj2 (proj2 (loadEffect_spec (Some (lit "{oops")))))
             (lit "{oops") eq_refl ltac:(discriminate) eq_refl).
Defined.

(** C2 as worded fails: a stored text cut short, or any text that is not
    JSON, makes the load effect raise; the default board is not used. *)
Lemma loadEffect_raises_on_malformed :
  loadEffect (Some (removelast (stringify (board st_three))))
  = Throw SyntaxError
  /\ loadEffect (Some (lit "{oops")) = Throw SyntaxError
  /\ mount (Some (lit "{oops")) = Throw SyntaxError.
Proof. split; [by vm_compute|]. split; reflexivity. Qed.

(** * Further properties of the handlers *)

(** ** Drops that move nothing *)

Lemma Forall_read_columns (P : jsstring -> Prop) h cols :
  Forall (fun c => P (Column.id c)) (List.map (read_column h) cols)
  <-> Forall (fun c => P (Column.id c)) cols.
Proof.
  induction cols as [|c cols IH]; simpl; [done|].
  rewrite !Forall_cons, IH. done.
Qed.

(** A drop on a column id that no column of the board has changes nothing
    and raises nothing, whatever the id dragged. *)
Theorem onDrop_no_destination (taskId columnId : jsstring) (st : State) :
  Forall (fun c => Column.id c <> columnId) (board st) ->
  onDrop taskId columnId st = Ok st.
Proof.
  intros Hb. apply (Forall_read_columns (fun i => i <> columnId)) in Hb.
  unfold onDrop. by rewrite drop_on_no_destination.
Qed.

Lemma onDrop_no_destination_witness :
  onDrop (lit "task-5") (lit "archive") st_three = Ok st_three.
Proof.
  apply onDrop_no_destination. repeat constructor; by vm_compute.
Defined.

Lemma not_elem_of_task_ids taskId (b : Board) :
  taskId ∉ task_ids b <->
  Forall (fun c => Forall (fun t => Task.id t <> taskId) (Column.tasks c)) b.
Proof.
  unfold task_ids, all_tasks. induction b as [|c b IH]; simpl.
  - split; [constructor|intros _; apply not_elem_of_nil].
  - rewrite map_app, not_elem_of_app, Forall_cons, IH.
    assert (H : taskId ∉ List.map Task.id (Column.tasks c)
                <-> Forall (fun t => Task.id t <> taskId) (Column.tasks c)).
    { induction (Column.tasks c) as [|t ts IHt]; simpl.
      - split; [constructor|intros _; apply not_elem_of_nil].
      - rewrite not_elem_of_cons, Forall_cons, IHt.
        split; intros [H1 H2]; split; try done; by intros ?. }
    by rewrite H.
Qed.

(** A drop on a column of the board, of an id that no task of the board
    has, raises a [TypeError] (and so leaves the state as it was). *)
Theorem onDrop_unknown_task (taskId columnId : jsstring) (st : State) :
  Exists (fun c => Column.id c = columnId) (board st) ->
  taskId ∉ task_ids (board st) ->
  onDrop taskId columnId st = Throw TypeError.
Proof.
  intros Hdest Hnone.
  pose proof (onDrop_board taskId columnId st) as Hb.
  unfold drop_board in Hb.
  rewrite drop_on_unknown_task in Hb; [|done|by apply not_elem_of_task_ids].
  destruct (onDrop taskId columnId st) as [st'|e]; simpl in Hb; congruence.
Qed.

Lemma onDrop_unknown_task_witness :
  onDrop [] (lit "done") st_three = Throw TypeError.
Proof.
  apply onDrop_unknown_task.
  - do 2 apply Exists_cons_tl. by apply Exists_cons_hd.
  - apply not_elem_of_task_ids. repeat constructor; by vm_compute.
Defined.

(** ** Moving on a board of distinct ids *)

Lemma task_ids_app b1 b2 : task_ids (b1 ++ b2) = task_ids b1 ++ task_ids b2.
Proof.
  unfold task_ids, all_tasks. by rewrite map_app, concat_app, map_app.
Qed.

Lemma task_ids_cons c b :
  task_ids (c :: b) = List.map Task.id (Column.tasks c) ++ task_ids b.
Proof. unfold task_ids, all_tasks. simpl. by rewrite map_app. Qed.

Lemma not_elem_of_map_id taskId (ts : list Task.t) :
  taskId ∉ List.map Task.id ts <-> Forall (fun t => Task.id t <> taskId) ts.
Proof.
  induction ts as [|t ts IH]; simpl.
  - split; [constructor|intros _; apply not_elem_of_nil].
  - rewrite not_elem_of_cons, Forall_cons, IH.
    split; intros [H1 H2]; split; try done; by intros ?.
Qed.

Lemma keep_others_id {A} (id_of : A -> jsstring) taskId (c : Column.t A) :
  Forall (fun t => id_of t <> taskId) (Column.tasks c) ->
  keep_others id_of taskId c = c.
Proof.
  intros Hnone. destruct c as [i title ts]. unfold keep_others. simpl in *.
  unfold Column.with_tasks. simpl. f_equal. apply filter_all.
  eapply Forall_impl; [exact Hnone|]. intros t Ht.
  apply has_id_false in Ht. by rewrite Ht.
Qed.

Lemma delete_from_id {A} (id_of : A -> jsstring) taskId cols :
  Forall (fun c => Forall (fun t => id_of t <> taskId) (Column.tasks c)) cols ->
  delete_from id_of taskId cols = cols.
Proof.
  induction 1 as [|c cols Hc _ IH]; simpl; [done|].
  unfold delete_from in *. simpl. by rewrite keep_others_id, IH.
Qed.

Lemma find_pos_first {A} (p : A -> bool) (l : list A) d x :
  l !! d = Some x -> p x = true ->
  (forall j y, j < d -> l !! j = Some y -> p y = false) ->
  find_pos p l = Some d.
Proof.
  intros Hd Hx Hfirst.
  apply list_elem_of_split_length in Hd as (l1 & l2 & -> & ->).
  unfold find_pos. rewrite findIndex_first; [| |done].
  - destruct (Z.ltb_spec (Z.of_nat (length l1)) 0); [lia|].
    by rewrite Nat2Z.id.
  - apply Forall_lookup. intros j y Hj.
    apply (Hfirst j y).
    + by apply lookup_lt_Some in Hj.
    + by apply lookup_app_l_Some.
Qed.

Lemma count_id_absent taskId ts :
  Forall (fun t => Task.id t <> taskId) ts -> count_id taskId ts = 0.
Proof.
  unfold count_id. induction 1 as [|t ts Ht _ IH]; simpl; [done|].
  apply has_id_false in Ht. by rewrite Ht.
Qed.

Lemma count_id_NoDup taskId ts :
  NoDup (List.map Task.id ts) -> count_id taskId ts <= 1.
Proof.
  induction ts as [|t ts IH]; simpl; [unfold count_id; simpl; lia|].
  intros [Hnotin Hnd]%NoDup_cons. specialize (IH Hnd).
  unfold count_id in *. simpl.
  destruct (has_id Task.id taskId t) eqn:Ht; [|done].
  apply has_id_true in Ht. subst taskId.
  apply not_elem_of_map_id in Hnotin.
  pose proof (count_id_absent _ _ Hnotin) as H0. unfold count_id in H0.
  simpl. lia.
Qed.

Lemma NoDup_task_ids_columns (b : Board) :
  NoDup (task_ids b) ->
  Forall (fun c => NoDup (List.map Task.id (Column.tasks c))) b.
Proof.
  induction b as [|c b IH]; [constructor|].
  rewrite task_ids_cons. intros (Hc & _ & Hb)%NoDup_app.
  constructor; [done|by apply IH].
Qed.

(** C6. On every board (its task ids pairwise different, as the data
    model has it), whatever the task id and the column id, the number of
    tasks summed over the columns is the same before and after [onDrop]:
    when it moves the task, when it returns early and when it raises. *)
Theorem onDrop_conserves_total (taskId columnId : jsstring) (st : State) :
  NoDup (task_ids (board st)) ->
  total (board (state_after (onDrop taskId columnId st) st))
  = total (board st).
Proof.
  intros Hnd. apply onDrop_total_single_id.
  eapply Forall_impl; [apply NoDup_task_ids_columns, Hnd|].
  intros c Hc. simpl in Hc. by apply count_id_NoDup.
Qed.

Lemma onDrop_conserves_total_witness :
  NoDup (task_ids (board st_three))
  /\ total (board (state_after (onDrop (lit "task-5") (lit "doing") st_three)
                               st_three)) = 3
  /\ total (board (state_after (onDrop (lit "task-5") (lit "doing") st_three)
                               st_three)) = total (board st_three).
Proof.
  assert (H : NoDup (task_ids (board st_three)))
    by (by apply (bool_decide_unpack _); vm_compute).
  split; [exact H|]. split; [reflexivity|].
  exact (onDrop_conserves_total (lit "task-5") (lit "doing") st_three H).
Defined.

(** C8. On every board (task ids pairwise different and column ids
    pairwise different, as the data model has it) that holds the task [t]
    in the column [c], dropping [t] on [c] takes it out of its place and
    puts it at the end of [c]: the other tasks of [c] keep their order and
    every other column is as it was. *)
Theorem onDrop_same_column (st : State) (pre post : Board)
    (c : Column.t Task.t) (l1 l2 : list Task.t) (t : Task.t) :
  NoDup (task_ids (board st)) ->
  NoDup (List.map Column.id (board st)) ->
  board st = pre ++ c :: post ->
  Column.tasks c = l1 ++ t :: l2 ->
  exists st',
    onDrop (Task.id t) (Column.id c) st = Ok st'
    /\ board st' = pre ++ Column.with_tasks c (l1 ++ l2 ++ [t]) :: post.
Proof.
  intros Hnd Hcols Hb Hts.
  rewrite Hb in Hnd, Hcols.
  rewrite task_ids_app, task_ids_cons, Hts, map_app in Hnd. simpl in Hnd.
  apply NoDup_app in Hnd as (_ & Hpre & Hnd).
  apply NoDup_app in Hnd as (Hnd & _ & _).
  apply NoDup_app in Hnd as (_ & Hl1 & Hnd).
  apply NoDup_cons in Hnd as (Hl2 & _).
  assert (Hpre' : Task.id t ∉ task_ids pre).
  { intros Hin. apply (Hpre _ Hin). apply elem_of_app. left.
    apply elem_of_app. right. by left. }
  assert (Hl1' : Task.id t ∉ List.map Task.id l1).
  { intros Hin. apply (Hl1 _ Hin). by left. }
  apply not_elem_of_task_ids in Hpre'.
  apply not_elem_of_map_id in Hl1', Hl2.
  rewrite map_app in Hcols. simpl in Hcols.
  apply NoDup_app in Hcols as (_ & Hids & _).
  apply (onDrop_same_column_first st pre post c l1 l2 t); try done.
  - by apply Forall_app.
  - apply Forall_forall. intros col Hcol Heq.
    apply (Hids (Column.id col)).
    + apply list_elem_of_In, in_map. by apply list_elem_of_In.
    + rewrite Heq. by left.
Qed.

Lemma onDrop_same_column_witness :
  exists st',
    onDrop (lit "task-5") (lit "todo") st_three = Ok st'
    /\ board st' =
         [ Column.mk (lit "todo") (lit "To Do")
             [Task.mk (lit "task-6") (lit "b"); Task.mk (lit "task-5") (lit "a")];
           Column.mk (lit "doing") (lit "Doing") [Task.mk (lit "task-7") (lit "c")];
           Column.mk (lit "done") (lit "Done") [] ].
Proof.
  apply (onDrop_same_column st_three []
           [ Column.mk (lit "doing") (lit "Doing") [Task.mk (lit "task-7") (lit "c")];
             Column.mk (lit "done") (lit "Done") [] ]
           (Column.mk (lit "todo") (lit "To Do")
              [Task.mk (lit "task-5") (lit "a"); Task.mk (lit "task-6") (lit "b")])
           [] [Task.mk (lit "task-6") (lit "b")]
           (Task.mk (lit "task-5") (lit "a"))).
  - by apply (bool_decide_unpack _); vm_compute.
  - by apply (bool_decide_unpack _); vm_compute.
  - reflexivity.
  - reflexivity.
Defined.

(** On a board where no two tasks share an id, dropping a task of the
    board on a column of the board takes it out of where it was and puts
    it at the end of that column (the first of that column id): the board
    is the one the deletion of the task gives, with the task pushed on the
    destination column. *)
Theorem onDrop_moves_task (st : State) (s d : nat)
    (cs cd : Column.t Task.t) (t : Task.t) :
  NoDup (task_ids (board st)) ->
  board st !! s = Some cs -> t ∈ Column.tasks cs ->
  board st !! d = Some cd ->
  (forall j c, j < d -> board st !! j = Some c -> Column.id c <> Column.id cd) ->
  exists st',
    onDrop (Task.id t) (Column.id cd) st = Ok st'
    /\ board st'
       = alter (push_task t) d (delete_from Task.id (Task.id t) (board st)).
Proof.
  intros Hnd Hs Ht Hd Hfirst.
  assert (Hpos : find_pos (fun col => str_eqb (Column.id col) (Column.id cd))
                          (board st) = Some d).
  { apply (find_pos_first _ _ _ cd); [done|by apply str_eqb_true|].
    intros j y Hj Hy. apply str_eqb_false. by apply (Hfirst j). }
  apply list_elem_of_split_length in Hs as (pre & post & Hb & ->).
  apply list_elem_of_split in Ht as (l1 & l2 & Hts).
  rewrite Hb in Hnd, Hpos.
  rewrite task_ids_app, task_ids_cons, Hts, map_app in Hnd. simpl in Hnd.
  apply NoDup_app in Hnd as (_ & Hpre & Hnd).
  apply NoDup_app in Hnd as (Hnd & Hpost & _).
  apply NoDup_app in Hnd as (_ & Hl1 & Hnd).
  apply NoDup_cons in Hnd as (Hl2 & _).
  assert (Hpre' : Task.id t ∉ task_ids pre).
  { intros Hin. apply (Hpre _ Hin). apply elem_of_app. left.
    apply elem_of_app. right. by left. }
  assert (Hpost' : Task.id t ∉ task_ids post).
  { apply Hpost. apply elem_of_app. right. by left. }
  assert (Hl1' : Task.id t ∉ List.map Task.id l1).
  { intros Hin. apply (Hl1 _ Hin). by left. }
  apply not_elem_of_task_ids in Hpre', Hpost'.
  apply not_elem_of_map_id in Hl1', Hl2.
  pose proof (onDrop_board (Task.id t) (Column.id cd) st) as Hdrop.
  unfold drop_board in Hdrop. rewrite Hb in Hdrop.
  rewrite (drop_on_moves Task.id _ _ pre cs post l1 t l2 d) in Hdrop by done.
  destruct (onDrop (Task.id t) (Column.id cd) st) as [st'|e]; [|done].
  simpl in Hdrop. injection Hdrop as Hdrop. exists st'. split; [done|].
  rewrite Hdrop, Hb. f_equal.
  unfold delete_from. rewrite map_app. simpl.
  fold (delete_from Task.id (Task.id t) pre).
  fold (delete_from Task.id (Task.id t) post).
  by rewrite !delete_from_id.
Qed.

Lemma onDrop_moves_task_witness :
  exists st',
    onDrop (lit "task-6") (lit "done") st_three = Ok st'
    /\ board st' =
         [ Column.mk (lit "todo") (lit "To Do") [Task.mk (lit "task-5") (lit "a")];
           Column.mk (lit "doing") (lit "Doing") [Task.mk (lit "task-7") (lit "c")];
           Column.mk (lit "done") (lit "Done") [Task.mk (lit "task-6") (lit "b")] ].
Proof.
  apply (onDrop_moves_task st_three 0 2
           (Column.mk (lit "todo") (lit "To Do")
              [Task.mk (lit "task-5") (lit "a"); Task.mk (lit "task-6") (lit "b")])
           (Column.mk (lit "done") (lit "Done") [])
           (Task.mk (lit "task-6") (lit "b"))).
  - by apply (bool_decide_unpack _); vm_compute.
  - reflexivity.
  - right. left.
  - reflexivity.
  - intros [|[|j]] c Hj Hc; [| |lia]; simpl in Hc; injection Hc as <-;
      by vm_compute.
Defined.

(** ** Deleting a task *)

Lemma filter_idem {A} (p : A -> bool) l :
  List.filter p (List.filter p l) = List.filter p l.
Proof.
  induction l as [|x l IH]; simpl; [done|].
  destruct (p x) eqn:Hx; simpl; [|done]. by rewrite Hx, IH.
Qed.

Lemma delete_from_idem {A} (id_of : A -> jsstring) taskId cols :
  delete_from id_of taskId (delete_from id_of taskId cols)
  = delete_from id_of taskId cols.
Proof.
  unfold delete_from. rewrite List.map_map. apply map_ext. intros c.
  unfold keep_others, Column.with_tasks. simpl. by rewrite filter_idem.
Qed.

(** [handleDeleteTask] takes out of every column the tasks of the id, and
    only them: the other tasks stay, in their order, the columns keep
    their ids and titles, and deleting again changes nothing more. *)
Theorem handleDeleteTask_spec (taskId : jsstring) (st : State) :
  let st' := handleDeleteTask taskId st in
  all_tasks (board st')
  = List.filter (fun t => negb (has_id Task.id taskId t)) (all_tasks (board st))
  /\ List.map Column.tasks (board st')
     = List.map (fun c => List.filter (fun t => negb (has_id Task.id taskId t))
                            (Column.tasks c)) (board st)
  /\ List.map Column.id (board st') = List.map Column.id (board st)
  /\ List.map Column.title (board st') = List.map Column.title (board st)
  /\ handleDeleteTask taskId st' = st'.
Proof.
  intros st'. unfold st'. rewrite handleDeleteTask_board.
  assert (Htasks : List.map Column.tasks (delete_from Task.id taskId (board st))
                   = List.map (fun c => List.filter
                                 (fun t => negb (has_id Task.id taskId t))
                                 (Column.tasks c)) (board st)).
  { unfold delete_from. by rewrite List.map_map. }
  split; [|split; [done|split; [|split]]].
  - unfold all_tasks. rewrite Htasks, <- List.concat_filter_map.
    by rewrite List.map_map.
  - unfold delete_from. by rewrite List.map_map.
  - unfold delete_from. by rewrite List.map_map.
  - unfold handleDeleteTask. simpl. by rewrite delete_from_idem.
Qed.

(** Deleting an id that no task has leaves the board as it is. *)
Theorem handleDeleteTask_unknown (taskId : jsstring) (st : State) :
  taskId ∉ task_ids (board st) ->
  board (handleDeleteTask taskId st) = board st.
Proof.
  intros Hnone. rewrite handleDeleteTask_board.
  apply delete_from_id. by apply not_elem_of_task_ids.
Qed.

Lemma handleDeleteTask_unknown_witness :
  board (handleDeleteTask (lit "task-404") st_three) = board st_three.
Proof.
  apply handleDeleteTask_unknown.
  apply not_elem_of_task_ids. repeat constructor; by vm_compute.
Defined.

(** ** Creating tasks *)

Lemma trimStart_nil s :
  trimStart s = [] <-> Forall (fun c => is_trim_space c = true) s.
Proof.
  induction s as [|c s IH]; simpl.
  - split; [constructor|done].
  - destruct (is_trim_space c) eqn:Hc.
    + rewrite IH, Forall_cons. by split; [|intros [_ ?]].
    + split; [done|]. intros [Hc' _]%Forall_cons. congruence.
Qed.

Lemma trimStart_head s c r : trimStart s = c :: r -> is_trim_space c = false.
Proof.
  induction s as [|c' s IH]; simpl; [done|].
  destruct (is_trim_space c') eqn:Hc'; [done|]. by intros [= <- <-].
Qed.

(** A string trims to the empty string exactly when it is made of white
    space only. *)
Lemma trim_blank s :
  truthy (trim s) = false <-> Forall (fun c => is_trim_space c = true) s.
Proof.
  assert (Htruthy : forall l : jsstring, truthy l = false <-> l = []).
  { by intros [|]. }
  rewrite Htruthy. unfold trim, trimEnd. split.
  - intros H. apply (f_equal (@rev _)) in H. rewrite rev_involutive in H.
    simpl in H. apply trimStart_nil in H.
    apply Forall_rev in H. rewrite rev_involutive in H.
    destruct (trimStart s) as [|c r] eqn:Hs; [by apply trimStart_nil|].
    apply trimStart_head in Hs. apply Forall_cons in H as [Hc _]. congruence.
  - intros H. apply trimStart_nil in H. by rewrite H.
Qed.

(** [handleCreateTask] leaves the state as it is exactly when the input is
    made of white space only (the empty input included). *)
Theorem handleCreateTask_noop_iff (now : Z) (st : State) :
  handleCreateTask now st = Ok st
  <-> Forall (fun c => is_trim_space c = true) (newTaskContent st).
Proof.
  rewrite <- trim_blank. unfold handleCreateTask.
  destruct (truthy (trim (newTaskContent st))) eqn:Hblank; [|done].
  split; [|done]. destruct (columns st); [done|]. intros [= Hst].
  apply (f_equal newTaskContent) in Hst. simpl in Hst.
  rewrite <- Hst in Hblank. done.
Qed.

Lemma handleCreateTask_noop_iff_witness :
  handleCreateTask 9 (handleInputChange [32; 9; 160; 8232]%N st_three)
  = Ok (handleInputChange [32; 9; 160; 8232]%N st_three).
Proof. apply handleCreateTask_noop_iff. repeat constructor. Defined.

(** On a board with no column at all (the stored text [[]] gives one), a
    creation with a non-blank input raises a [TypeError]. *)
Theorem handleCreateTask_no_column (now : Z) (st : State) :
  board st = [] ->
  truthy (trim (newTaskContent st)) = true ->
  handleCreateTask now st = Throw TypeError.
Proof.
  intros Hb Hblank. unfold handleCreateTask. rewrite Hblank.
  unfold board in Hb. by destruct (columns st).
Qed.

Lemma handleCreateTask_no_column_witness :
  exists st0,
    mount (Some (lit "[]")) = Ok (Some st0)
    /\ handleCreateTask 9 (handleInputChange (lit "a") st0) = Throw TypeError.
Proof.
  eexists. split; [reflexivity|].
  apply handleCreateTask_no_column; reflexivity.
Defined.

Lemma handleCreateTask_board now st c cs :
  wf st -> board st = c :: cs ->
  truthy (trim (newTaskContent st)) = true ->
  exists st',
    handleCreateTask now st = Ok st'
    /\ board st' =
         Column.with_tasks c
           (Column.tasks c ++ [Task.mk (id_at_clock now) (newTaskContent st)])
         :: cs
    /\ wf st'.
Proof.
  intros (Hb & Hnd & Hsel) Hboard Hblank. unfold handleCreateTask.
  rewrite Hblank. unfold board in Hboard.
  destruct (columns st) as [|c0 cs0] eqn:Hcols; [done|].
  simpl in Hboard. injection Hboard as <- <-.
  eexists. split; [reflexivity|].
  rewrite refs_cons in Hb, Hnd.
  pose proof Hb as Hb'. apply Forall_app in Hb' as [Hc0 Hcs0].
  split.
  - unfold board. simpl. rewrite read_columns_alloc by done. f_equal.
    unfold read_column, push_task, Column.with_tasks. simpl. f_equal.
    rewrite map_app, map_deref_alloc by done. simpl.
    by rewrite deref_fresh.
  - unfold wf. simpl. rewrite refs_cons. simpl.
    rewrite length_app. simpl. repeat split.
    + rewrite <- app_assoc. apply Forall_app. split.
      * eapply Forall_impl; [exact Hc0|]. intros r Hr. simpl in Hr. lia.
      * constructor; [lia|].
        eapply Forall_impl; [exact Hcs0|]. intros r Hr. simpl in Hr. lia.
    + rewrite <- app_assoc. simpl.
      apply NoDup_app in Hnd as (Hnd1 & Hdisj & Hnd2).
      apply NoDup_app. repeat split; [done| |].
      * intros r Hr [->|Hin]%elem_of_cons; [|by apply (Hdisj r)].
        rewrite Forall_forall in Hc0. specialize (Hc0 _ Hr). lia.
      * apply NoDup_cons. split; [|done]. intros Hin.
        rewrite Forall_forall in Hcs0. specialize (Hcs0 _ Hin). lia.
    + destruct (selectedTask st); simpl in *; lia.
Qed.

Lemma lit_inj s1 s2 : lit s1 = lit s2 -> s1 = s2.
Proof.
  unfold lit. intros H.
  assert (Hinj : forall l1 l2 : list ascii,
             List.map N_of_ascii l1 = List.map N_of_ascii l2 -> l1 = l2).
  { induction l1 as [|a l1 IH]; intros [|b l2]; simpl; try done.
    intros [= Hab Hl]. f_equal; [|by apply IH].
    by rewrite <- (ascii_N_embedding a), <- (ascii_N_embedding b), Hab. }
  apply Hinj in H.
  by rewrite <- (String.string_of_list_ascii_of_string s1),
             <- (String.string_of_list_ascii_of_string s2), H.
Qed.

Lemma string_of_int_inj n m : string_of_int n = string_of_int m -> n = m.
Proof.
  unfold string_of_int. intros H%lit_inj.
  apply DecimalZ.to_int_inj.
  assert (Hok : forall z, Z.to_int z <> Decimal.Pos Decimal.Nil
                          /\ Z.to_int z <> Decimal.Neg Decimal.Nil).
  { intros [|p|p]; simpl; split; try done;
      intros [= Hp]; by apply DecimalPos.Unsigned.to_uint_nonnil in Hp. }
  destruct (Hok n) as [Hn1 Hn2]. destruct (Hok m) as [Hm1 Hm2].
  pose proof (NilZero.isi _ Hn1 Hn2) as Hn.
  pose proof (NilZero.isi _ Hm1 Hm2) as Hm.
  rewrite H in Hn. congruence.
Qed.

(** Two clock values give two ids, and one clock value one id. *)
Lemma id_at_clock_inj n m : id_at_clock n = id_at_clock m <-> n = m.
Proof.
  split; [|by intros ->]. unfold id_at_clock.
  intros H%app_inv_head. by apply string_of_int_inj.
Qed.

(** Whatever the state (with a first column) and the two non-blank texts,
    two creations that read the same clock value leave two tasks of the
    same id on the board. *)
Theorem handleCreateTask_twice_same_clock (now : Z) (v1 v2 : jsstring)
    (st : State) :
  board st <> [] ->
  truthy (trim v1) = true -> truthy (trim v2) = true ->
  exists st1 st2,
    handleCreateTask now (handleInputChange v1 st) = Ok st1
    /\ handleCreateTask now (handleInputChange v2 st1) = Ok st2
    /\ ~ NoDup (task_ids (board st2)).
Proof.
  intros Hb H1 H2. unfold board in Hb.
  destruct (columns st) as [|c cs] eqn:Hcols; [done|].
  unfold handleCreateTask. fold (id_at_clock now).
  generalize (id_at_clock now). intros i.
  simpl. rewrite H1, Hcols. eexists _, _.
  split; [reflexivity|]. simpl. rewrite H2. split; [reflexivity|].
  unfold board. simpl. rewrite task_ids_cons. simpl.
  rewrite !map_app. simpl.
  rewrite length_app. simpl.
  replace (deref ((heap st ++ [Task.mk i v1]) ++ [Task.mk i v2])
                 (length (heap st)))
    with (Task.mk i v1).
  2:{ unfold deref. rewrite lookup_total_app_l by (rewrite length_app; simpl; lia).
      rewrite lookup_total_app_r by lia. by rewrite Nat.sub_diag. }
  replace (deref ((heap st ++ [Task.mk i v1]) ++ [Task.mk i v2])
                 (length (heap st) + 1))
    with (Task.mk i v2).
  2:{ unfold deref. rewrite lookup_total_app_r by (rewrite length_app; simpl; lia).
      rewrite length_app. simpl. by rewrite Nat.sub_diag. }
  simpl. intros Hnd.
  apply NoDup_app in Hnd as (Hnd & _ & _).
  apply NoDup_app in Hnd as (_ & Hdisj & _).
  apply (Hdisj i); [|by left].
  apply elem_of_app. right. by left.
Qed.

Lemma handleCreateTask_twice_same_clock_witness :
  exists st1 st2,
    handleCreateTask 7 (handleInputChange (lit "x") st_three) = Ok st1
    /\ handleCreateTask 7 (handleInputChange (lit "y") st1) = Ok st2
    /\ ~ NoDup (task_ids (board st2)).
Proof.
  apply handleCreateTask_twice_same_clock; [discriminate|reflexivity..].
Defined.

Lemma create_all_board inputs st c cs :
  wf st -> board st = c :: cs ->
  Forall (fun i => truthy (trim (fst i)) = true) inputs ->
  exists st',
    create_all inputs st = Ok st'
    /\ board st' =
         Column.with_tasks c
           (Column.tasks c
            ++ List.map (fun i => Task.mk (id_at_clock (snd i)) (fst i)) inputs)
         :: cs
    /\ wf st'.
Proof.
  intros Hwf Hb Hin. revert st c Hwf Hb.
  induction Hin as [|[value now] inputs Hv _ IH]; intros st c Hwf Hb.
  - exists st. simpl. rewrite app_nil_r. split; [done|]. split; [|done].
    rewrite Hb. by destruct c.
  - simpl in Hv.
    destruct (handleCreateTask_board now (handleInputChange value st) c cs)
      as (st1 & Hst1 & Hb1 & Hwf1); [done..|].
    destruct (IH st1 _ Hwf1 Hb1) as (st' & Hst' & Hb' & Hwf').
    exists st'. simpl. rewrite Hst1. split; [done|]. split; [|done].
    rewrite Hb'. unfold Column.with_tasks. simpl. by rewrite <- app_assoc.
Qed.

(** From the default board, creations that read pairwise different clock
    values give tasks of pairwise different ids: all in the first column,
    in the order they were made, with the texts as typed. *)
Theorem create_all_distinct (inputs : list (jsstring * Z)) :
  Forall (fun i => truthy (trim (fst i)) = true) inputs ->
  NoDup (List.map snd inputs) ->
  exists st',
    create_all inputs initialState = Ok st'
    /\ board st' =
         [ Column.mk (lit "todo") (lit "To Do")
             (List.map (fun i => Task.mk (id_at_clock (snd i)) (fst i)) inputs);
           Column.mk (lit "doing") (lit "Doing") [];
           Column.mk (lit "done") (lit "Done") [] ]
    /\ NoDup (task_ids (board st')).
Proof.
  intros Hin Hnd.
  destruct (create_all_board inputs initialState
              (Column.mk (lit "todo") (lit "To Do") [])
              [Column.mk (lit "doing") (lit "Doing") [];
               Column.mk (lit "done") (lit "Done") []])
    as (st' & Hst' & Hb & _); [|done|done|].
  { by apply (bool_decide_unpack _); vm_compute. }
  exists st'. split; [done|]. split; [done|].
  rewrite Hb. unfold task_ids, all_tasks. simpl. rewrite app_nil_r.
  rewrite List.map_map. simpl.
  clear Hb Hst' Hin. induction inputs as [|[v now] inputs IH]; simpl.
  - constructor.
  - simpl in Hnd. apply NoDup_cons in Hnd as [Hnotin Hnd].
    apply NoDup_cons. split; [|by apply IH].
    intros Hin. apply Hnotin.
    apply list_elem_of_In, in_map_iff in Hin as ([v' now'] & Heq & Hin').
    simpl in Heq. apply id_at_clock_inj in Heq as ->.
    apply list_elem_of_In, in_map_iff. by exists (v', now).
Qed.

Lemma create_all_distinct_witness :
  exists st',
    create_all [(lit "a", 5%Z); (lit " b ", 6%Z)] initialState = Ok st'
    /\ task_ids (board st') = [lit "task-5"; lit "task-6"].
Proof.
  destruct (create_all_distinct [(lit "a", 5%Z); (lit " b ", 6%Z)])
    as (st' & Hst' & Hb & _).
  - repeat constructor.
  - by apply (bool_decide_unpack _); vm_compute.
  - exists st'. split; [exact Hst'|]. by rewrite Hb.
Defined.

(** ** References stay allocated and unshared *)

Lemma filter_sublist {A} (p : A -> bool) l : List.filter p l `sublist_of` l.
Proof.
  induction l as [|x l IH]; simpl; [constructor|].
  destruct (p x); by constructor.
Qed.

Lemma refs_delete_sublist (id_of : ref -> jsstring) taskId cols :
  refs (delete_from id_of taskId cols) `sublist_of` refs cols.
Proof.
  induction cols as [|c cols IH]; simpl; [constructor|].
  rewrite !refs_cons. apply sublist_app; [apply filter_sublist|apply IH].
Qed.

Lemma refs_alter_push t d (cols : list (Column.t ref)) :
  d < length cols -> refs (alter (push_task t) d cols) ≡ₚ t :: refs cols.
Proof.
  intros Hd. destruct (lookup_lt_is_Some_2 cols d Hd) as [c Hc].
  apply list_elem_of_split_length in Hc as (l1 & l2 & -> & ->).
  rewrite alter_middle, !refs_app, !refs_cons. simpl.
  rewrite <- app_assoc. simpl.
  rewrite (Permutation_middle (refs l1) _ t).
  apply Permutation_app_head.
  rewrite <- Permutation_middle. done.
Qed.

(** New columns whose references are unshared and were all on the board
    keep the state well formed. *)
Lemma wf_set_columns st cols :
  wf st -> NoDup (refs cols) ->
  (forall r, r ∈ refs cols -> r ∈ refs (columns st)) ->
  wf (set_columns cols st).
Proof.
  intros (Hb & _ & Hsel) Hnd Hincl. unfold wf. simpl.
  split; [|done]. apply Forall_forall. intros r Hr.
  rewrite Forall_forall in Hb. by apply Hb, Hincl.
Qed.

Lemma handleDeleteTask_wf taskId st : wf st -> wf (handleDeleteTask taskId st).
Proof.
  intros Hwf. apply wf_set_columns; [done| |].
  - eapply sublist_NoDup; [apply Hwf|apply refs_delete_sublist].
  - intros r. apply sublist_subseteq, refs_delete_sublist.
Qed.

Lemma onDrop_wf taskId columnId st st' :
  wf st -> onDrop taskId columnId st = Ok st' -> wf st'.
Proof.
  intros Hwf. unfold onDrop.
  destruct (drop_on_cases (id_at (heap st)) taskId columnId (columns st))
    as [[_ ->]|[(_ & _ & ->)|H]]; [by intros [= <-]|done|].
  destruct H as (d & pre & src & post & l1 & t & l2
                 & Hcols & _ & Htasks & _ & Ht & _ & Hd & ->).
  intros [= <-].
  set (b1 := pre ++ keep_others (id_at (heap st)) taskId src :: post).
  assert (Hlen : length b1 = length (columns st)).
  { unfold b1. rewrite Hcols, !length_app. done. }
  pose proof (proj1 (proj2 Hwf)) as Hnd.
  rewrite Hcols, refs_app, refs_cons, Htasks in Hnd.
  assert (Hperm : refs pre ++ (l1 ++ t :: l2) ++ refs post
                  ≡ₚ t :: refs pre ++ (l1 ++ l2) ++ refs post).
  { rewrite <- !app_assoc. simpl. rewrite !(app_assoc (refs pre) l1).
    symmetry. apply Permutation_middle. }
  rewrite Hperm in Hnd. apply NoDup_cons in Hnd as [Hnotin Hnd].
  assert (Hsub : refs b1 `sublist_of` refs pre ++ (l1 ++ l2) ++ refs post).
  { unfold b1. rewrite refs_app, refs_cons.
    apply sublist_app; [done|]. apply sublist_app; [|done].
    unfold keep_others. simpl. rewrite Htasks, List.filter_app. simpl.
    apply has_id_true in Ht. rewrite Ht. simpl.
    apply sublist_app; apply filter_sublist. }
  assert (Hin : forall r, r ∈ t :: refs pre ++ (l1 ++ l2) ++ refs post ->
                          r ∈ refs (columns st)).
  { intros r Hr. rewrite Hcols, refs_app, refs_cons, Htasks.
    by rewrite Hperm. }
  apply wf_set_columns; [done| |].
  - rewrite refs_alter_push by lia. apply NoDup_cons. split.
    + intros Hr. apply Hnotin. by apply (sublist_subseteq _ _ Hsub).
    + by apply (sublist_NoDup _ _ Hnd).
  - intros r. rewrite refs_alter_push by lia.
    intros [->|Hr]%elem_of_cons; apply Hin; [by left|].
    right. by apply (sublist_subseteq _ _ Hsub).
Qed.

Lemma handleSaveEdit_wf st : wf st -> wf (handleSaveEdit st).
Proof.
  intros (Hb & Hnd & Hsel). unfold handleSaveEdit.
  destruct (editTaskId st) as [tid|]; [|done].
  destruct (truthy tid && truthy (trim (editContent st))); [|done].
  unfold wf. simpl. by rewrite save_fold_length.
Qed.

Lemma handleCreateTask_wf now st st' :
  wf st -> handleCreateTask now st = Ok st' -> wf st'.
Proof.
  intros Hwf Hst'.
  destruct (truthy (trim (newTaskContent st))) eqn:Hblank.
  - destruct (board st) as [|c cs] eqn:Hb.
    + unfold handleCreateTask in Hst'. rewrite Hblank in Hst'.
      unfold board in Hb. by destruct (columns st).
    + destruct (handleCreateTask_board now st c cs Hwf Hb Hblank)
        as (st1 & Hst1 & _ & Hwf1). congruence.
  - unfold handleCreateTask in Hst'. rewrite Hblank in Hst'. by injection Hst' as <-.
Qed.

Lemma dispatch_keeps_wf (e : Event) (st st' : State) :
  wf st -> dispatch e st = Some (Ok st') -> wf st'.
Proof.
  intros Hwf. destruct e; simpl.
  - by intros [= <-].
  - intros [= H]. by apply (handleCreateTask_wf now st).
  - destruct (existsb _ _); [|done]. intros [= H].
    by apply (onDrop_wf taskId columnId st).
  - case_bool_decide as Hin; [|done]. intros [= <-].
    destruct Hwf as (Hb & Hnd & _). repeat split; [done..|]. simpl.
    rewrite Forall_forall in Hb. by apply Hb.
  - destruct (view st); [done| |done]. by intros [= <-].
  - destruct (view st); [done..|]. by intros [= <-].
  - destruct (view st); [done..|]. intros [= <-]. by apply handleSaveEdit_wf.
  - destruct (view st); [done..|]. by intros [= <-].
  - destruct (view st); [done| |done]. intros [= <-].
    destruct (handleDeleteTask_wf (Task.id (deref (heap st) task)) st Hwf)
      as (Hb & Hnd & _).
    by repeat split.
  - destruct (view st); [done| |done]. intros [= <-].
    destruct Hwf as (Hb & Hnd & _). by repeat split.
Qed.

(** Whatever the gestures, from a well-formed state (the default one, or
    one mounted on a saved board) every state reached keeps the task
    objects of the board allocated and unshared: no handler puts one task
    object at two places of the board. *)
Theorem reachable_wf (st0 st : State) :
  wf st0 -> reachable st0 st -> wf st.
Proof.
  intros Hwf. induction 1 as [|st e st' _ IH Hstep]; [done|].
  by apply (dispatch_keeps_wf e st).
Qed.

Lemma reachable_wf_witness :
  let s1 := handleInputChange (lit "a") initialState in
  let s2 := state_after (handleCreateTask 5 s1) s1 in
  let s3 := state_after (onDrop (lit "task-5") (lit "doing") s2) s2 in
  reachable initialState s3
  /\ task_ids (board s3) = [lit "task-5"]
  /\ List.map Column.tasks (columns s3) = [[]; [0]; []]
  /\ wf s3.
Proof.
  intros s1 s2 s3.
  assert (Hwf : wf initialState) by (by apply (bool_decide_unpack _); vm_compute).
  assert (Hreach : reachable initialState s3).
  { apply (reach_step _ s2 (DropOn (lit "task-5") (lit "doing"))); [|reflexivity].
    apply (reach_step _ s1 (AddTaskClick 5)); [|reflexivity].
    apply (reach_step _ initialState (InputChange (lit "a"))); [|reflexivity].
    apply reach_start. }
  split; [exact Hreach|]. split; [reflexivity|]. split; [reflexivity|].
  exact (reachable_wf initialState s3 Hwf Hreach).
Defined.

(** ** Mounting on what was saved *)

Lemma map_deref_seq h ts rest :
  List.map (deref (h ++ ts ++ rest)) (seq (length h) (length ts)) = ts.
Proof.
  revert h. induction ts as [|t ts IH]; intros h; simpl; [done|].
  f_equal.
  - unfold deref. rewrite lookup_total_app_r by lia.
    by rewrite Nat.sub_diag.
  - specialize (IH (h ++ [t])). rewrite length_app in IH. simpl in IH.
    rewrite Nat.add_1_r in IH. rewrite <- app_assoc in IH. apply IH.
Qed.

Lemma alloc_columns_spec h b :
  exists cols,
    alloc_columns h b = (h ++ all_tasks b, cols)
    /\ (forall rest, List.map (read_column ((h ++ all_tasks b) ++ rest)) cols = b)
    /\ refs cols = seq (length h) (length (all_tasks b)).
Proof.
  revert h. induction b as [|c b IH]; intros h.
  - exists []. unfold all_tasks. simpl. by rewrite app_nil_r.
  - destruct (IH (h ++ Column.tasks c)) as (cols & Halloc & Hread & Hrefs).
    eexists. cbn [alloc_columns]. rewrite Halloc.
    assert (Hall : all_tasks (c :: b) = Column.tasks c ++ all_tasks b)
      by reflexivity.
    rewrite Hall, app_assoc. split; [reflexivity|]. split.
    + intros rest. simpl. rewrite Hread. f_equal.
      unfold read_column, Column.with_tasks. simpl.
      rewrite <- !app_assoc, map_deref_seq. by destruct c.
    + rewrite refs_cons. simpl. rewrite Hrefs, !length_app.
      by rewrite <- seq_app.
Qed.

Lemma set_board_spec b :
  board (set_board b initialState) = b /\ wf (set_board b initialState).
Proof.
  unfold set_board. simpl.
  destruct (alloc_columns_spec [] b) as (cols & -> & Hread & Hrefs).
  simpl in *. split.
  - specialize (Hread []). rewrite app_nil_r in Hread. apply Hread.
  - unfold wf. simpl. rewrite Hrefs. repeat split.
    + apply Forall_forall. intros r Hr%list_elem_of_In%in_seq. lia.
    + apply NoDup_ListNoDup, seq_NoDup.
Qed.

Lemma mount_stringify b :
  exists st',
    mount (Some (stringify b)) = Ok (Some st') /\ board st' = b /\ wf st'.
Proof.
  unfold mount. rewrite loadEffect_stringify.
  eexists. split; [reflexivity|]. apply set_board_spec.
Qed.

(** Mounting on the text that the save effect wrote for a state gives a
    state with the same board, every task an object of its own. *)
Theorem mount_saved (st : State) :
  exists st',
    mount (Some (saveEffect st)) = Ok (Some st')
    /\ board st' = board st
    /\ wf st'.
Proof. apply mount_stringify. Qed.

(** On a storage without the key the component starts from the default
    board and writes its text; on a storage that holds the text saved for
    a state it gets that board back and leaves the storage as it is. *)
Theorem mountKanban_spec (s : Storage) :
  (s !! kanban_key = None ->
   mountKanban s
   = Ok (Some (initialState,
               <[kanban_key := stringify (board initialState)]> s)))
  /\ (forall st, s !! kanban_key = Some (saveEffect st) ->
      exists st',
        mountKanban s = Ok (Some (st', s))
        /\ board st' = board st /\ wf st').
Proof.
  split.
  - intros Hs. unfold mountKanban. by rewrite Hs.
  - intros st Hs. unfold mountKanban. rewrite Hs.
    unfold saveEffect at 1.
    destruct (mount_stringify (board st)) as (st' & -> & Hb & Hwf).
    exists st'. split; [|done]. do 3 f_equal.
    unfold saveEffect. rewrite Hb. by apply insert_id.
Qed.

Lemma mountKanban_spec_witness :
  exists st',
    mountKanban {[ kanban_key := saveEffect st_three ]}
    = Ok (Some (st', {[ kanban_key := saveEffect st_three ]}))
    /\ board st' = board st_three /\ wf st'.
Proof.
  apply (proj2 (mountKanban_spec {[ kanban_key := saveEffect st_three ]})).
  apply lookup_singleton_eq.
Defined.

(** The load effect keeps the default board only when there is no stored
    value or when it is the empty string: no other stored text falls back
    to it. *)
Theorem loadEffect_kept_iff (savedColumns : option jsstring) :
  loadEffect savedColumns = Ok Kept
  <-> savedColumns = None \/ savedColumns = Some [].
Proof.
  split; [|by intros [-> | ->]].
  destruct savedColumns as [[|c text]|]; [by right| |by left].
  unfold loadEffect. cbn [truthy].
  destruct (parse (c :: text)) as [v|e]; [|done].
  by destruct (board_of_json v).
Qed.

Lemma loadEffect_kept_iff_witness : loadEffect (Some []) = Ok Kept.
Proof. apply loadEffect_kept_iff. by right. Defined.

(** ** The detail view and the edit form *)

Lemma view_Viewing_inv st r :
  view st = Viewing r ->
  isFullscreenViewOpen st = true /\ selectedTask st = Some r.
Proof.
  unfold view. destruct (isFullscreenViewOpen st); [|done].
  destruct (selectedTask st) as [r'|]; [|done].
  destruct (isEditing st && _); [done|]. by intros [= ->].
Qed.

Lemma view_Editing_inv st r :
  view st = Editing r ->
  isFullscreenViewOpen st = true /\ selectedTask st = Some r
  /\ isEditing st = true
  /\ editTaskId st = Some (Task.id (deref (heap st) r)).
Proof.
  unfold view. destruct (isFullscreenViewOpen st); [|done].
  destruct (selectedTask st) as [r'|]; [|done].
  destruct (isEditing st); simpl; [|done].
  case_bool_decide as Hid; [|done]. by intros [= ->].
Qed.

(** From the view of a task, Edit shows the edit form on that task with
    its content in the buffer and Close closes the view; from the edit
    form, Cancel goes back to the view of the task. None of the three
    changes the board. *)
Theorem view_transitions (st : State) (task : ref) :
  (view st = Viewing task ->
   view (onEditClick task st) = Editing task
   /\ editContent (onEditClick task st) = Task.content (deref (heap st) task)
   /\ board (onEditClick task st) = board st
   /\ view (closeFullscreenView st) = Closed
   /\ board (closeFullscreenView st) = board st)
  /\ (view st = Editing task ->
      view (handleCancelEdit st) = Viewing task
      /\ editContent (handleCancelEdit st) = []
      /\ board (handleCancelEdit st) = board st).
Proof.
  split.
  - intros (Hopen & Hsel)%view_Viewing_inv. repeat split.
    unfold view, onEditClick. simpl. rewrite Hopen, Hsel.
    by rewrite bool_decide_eq_true_2.
  - intros (Hopen & Hsel & _)%view_Editing_inv. repeat split.
    unfold view. simpl. by rewrite Hopen, Hsel.
Qed.

Lemma view_transitions_witness :
  view (onEditClick 1 st_three) = Editing 1
  /\ view (handleCancelEdit (onEditClick 1 st_three)) = Viewing 1.
Proof.
  split.
  - exact (proj1 (proj1 (view_transitions st_three 1) eq_refl)).
  - exact (proj1 (proj2 (view_transitions (onEditClick 1 st_three) 1) eq_refl)).
Defined.

Lemma edit_first_ids tid buf ts :
  List.map Task.id (edit_first tid buf ts) = List.map Task.id ts.
Proof.
  induction ts as [|t ts IH]; simpl; [done|].
  destruct (has_id Task.id tid t); simpl; [done|]. by rewrite IH.
Qed.

Lemma edit_board_shape tid buf (b : Board) :
  List.map (fun c => (Column.id c, Column.title c,
                      List.map Task.id (Column.tasks c)))
           (edit_board tid buf b)
  = List.map (fun c => (Column.id c, Column.title c,
                        List.map Task.id (Column.tasks c))) b.
Proof.
  unfold edit_board. rewrite List.map_map. apply map_ext. intros c. simpl.
  by rewrite edit_first_ids.
Qed.

Lemma handleSaveEdit_cases st :
  handleSaveEdit st = st
  \/ exists tid, editTaskId st = Some tid /\ tid <> []
       /\ truthy (trim (editContent st)) = true.
Proof.
  unfold handleSaveEdit. destruct (editTaskId st) as [tid|]; [|by left].
  destruct tid as [|c tid]; [by left|].
  destruct (truthy (trim (editContent st))) eqn:Hbuf; [|by left].
  right. by exists (c :: tid).
Qed.

(** Saving an edit changes contents only: every column keeps its id, its
    title and the ids of its tasks in their order. *)
Theorem handleSaveEdit_shape (st : State) :
  wf st ->
  List.map (fun c => (Column.id c, Column.title c,
                      List.map Task.id (Column.tasks c)))
           (board (handleSaveEdit st))
  = List.map (fun c => (Column.id c, Column.title c,
                        List.map Task.id (Column.tasks c))) (board st).
Proof.
  intros Hwf.
  destruct (handleSaveEdit_cases st) as [->|(tid & Htid & Hne & Hbuf)]; [done|].
  rewrite (handleSaveEdit_board st tid) by done. apply edit_board_shape.
Qed.

Lemma handleSaveEdit_shape_witness :
  let st := handleEditTask (lit "task-6") (lit "b2") st_three in
  task_ids (board (handleSaveEdit st)) = task_ids (board st_three)
  /\ List.map (fun c => (Column.id c, Column.title c,
                         List.map Task.id (Column.tasks c)))
              (board (handleSaveEdit st))
     = List.map (fun c => (Column.id c, Column.title c,
                           List.map Task.id (Column.tasks c))) (board st).
Proof.
  intros st. split; [reflexivity|].
  apply handleSaveEdit_shape. by apply (bool_decide_unpack _); vm_compute.
Defined.

(** Saving an edit of an id that no task of the board has leaves the
    board as it is (the editing cells are reset all the same). *)
Theorem handleSaveEdit_unknown (st : State) (tid : jsstring) :
  wf st ->
  editTaskId st = Some tid -> tid ∉ task_ids (board st) ->
  board (handleSaveEdit st) = board st.
Proof.
  intros Hwf Htid Hnone.
  destruct (handleSaveEdit_cases st) as [->|(tid' & Htid' & Hne & Hbuf)]; [done|].
  rewrite (handleSaveEdit_board st tid') by done.
  assert (tid' = tid) as -> by congruence.
  apply not_elem_of_task_ids in Hnone. unfold edit_board.
  rewrite <- (map_id (board st)) at 2. apply map_ext_in.
  intros c Hc. rewrite Forall_forall in Hnone.
  specialize (Hnone c ltac:(by apply list_elem_of_In)).
  rewrite edit_first_none; [by destruct c|].
  eapply Forall_impl; [exact Hnone|]. intros t. apply has_id_false.
Qed.

Lemma handleSaveEdit_unknown_witness :
  let st := handleEditTask (lit "task-404") (lit "x") st_three in
  board (handleSaveEdit st) = board st /\ isEditing (handleSaveEdit st) = false.
Proof.
  intros st. split; [|reflexivity].
  apply (handleSaveEdit_unknown st (lit "task-404")).
  - by apply (bool_decide_unpack _); vm_compute.
  - reflexivity.
  - apply not_elem_of_task_ids. repeat constructor; by vm_compute.
Defined.

Lemma id_at_set_content buf r h x : id_at (set_content buf r h) x = id_at h x.
Proof.
  unfold id_at, deref, set_content. rewrite list_lookup_total_alter.
  case_decide as H; [|done]. by destruct H as [-> _].
Qed.

Lemma id_at_save_in_column tid buf h c x :
  id_at (save_in_column tid buf h c) x = id_at h x.
Proof.
  unfold save_in_column. destruct (_ =? _)%Z; [done|].
  destruct (index _ _); [apply id_at_set_content|done].
Qed.

Lemma id_at_save_fold tid buf cols h x :
  id_at (fold_left (save_in_column tid buf) cols h) x = id_at h x.
Proof.
  revert h. induction cols as [|c cols IH]; intros h; simpl; [done|].
  by rewrite IH, id_at_save_in_column.
Qed.

Lemma task_ids_board st :
  task_ids (board st) = List.map (id_at (heap st)) (refs (columns st)).
Proof.
  unfold task_ids, all_tasks, board, refs.
  induction (columns st) as [|c cols IH]; simpl; [done|].
  rewrite !map_app, IH. f_equal. by rewrite List.map_map.
Qed.

Lemma elem_of_refs_split r cols :
  r ∈ refs cols ->
  exists pre c post l1 l2,
    cols = pre ++ c :: post /\ Column.tasks c = l1 ++ r :: l2.
Proof.
  induction cols as [|c cols IH]; [by intros ?%elem_of_nil|].
  rewrite refs_cons, elem_of_app. intros [Hin|Hin].
  - apply list_elem_of_split in Hin as (l1 & l2 & Hts).
    by exists [], c, cols, l1, l2.
  - destruct (IH Hin) as (pre & c' & post & l1 & l2 & -> & Hts).
    by exists (c :: pre), c', post, l1, l2.
Qed.

Lemma save_in_column_hit tid buf h c l1 r l2 :
  Column.tasks c = l1 ++ r :: l2 ->
  Forall (fun x => has_id (id_at h) tid x = false) l1 ->
  has_id (id_at h) tid r = true ->
  save_in_column tid buf h c = set_content buf r h.
Proof.
  intros Hts Hl1 Hr. unfold save_in_column. rewrite Hts.
  rewrite findIndex_first by done.
  destruct (Z.eqb_spec (Z.of_nat (length l1)) (-1)); [lia|].
  by rewrite index_middle.
Qed.

(** Saved from the edit form of a task of the board, on a board of
    distinct ids, a non-blank buffer becomes the content of the very task
    object the view holds: the view goes back to showing that task, with
    the buffer as typed for content. *)
Theorem handleSaveEdit_shows_content (st : State) (task : ref) :
  wf st ->
  view st = Editing task ->
  task ∈ refs (columns st) ->
  NoDup (task_ids (board st)) ->
  Task.id (deref (heap st) task) <> [] ->
  truthy (trim (editContent st)) = true ->
  view (handleSaveEdit st) = Viewing task
  /\ deref (heap (handleSaveEdit st)) task
     = Task.mk (Task.id (deref (heap st) task)) (editContent st).
Proof.
  intros (Hb & Hnd & _) (Hopen & Hsel & _ & Htid)%view_Editing_inv
         Hin Hids Hne Hbuf.
  unfold handleSaveEdit. rewrite Htid, Hbuf.
  remember (Task.id (deref (heap st) task)) as tid eqn:Hid.
  destruct tid as [|c0 tid0]; [done|].
  cbn [truthy andb]. split.
  { unfold view. simpl. by rewrite Hopen, Hsel. }
  simpl. clear Hne.
  set (buf := editContent st).
  rewrite task_ids_board in Hids.
  apply elem_of_refs_split in Hin as (pre & c & post & l1 & l2 & Hcols & Hts).
  rewrite Hcols in *. rewrite refs_app, refs_cons, Hts in Hb, Hnd, Hids.
  rewrite fold_left_app. simpl.
  apply NoDup_app in Hnd as (_ & Hpre & Hnd).
  apply NoDup_app in Hnd as (Hndc & Hpost & _).
  apply NoDup_app in Hndc as (_ & Hl1 & _).
  rewrite save_fold_frame.
  2:{ intros Hr. apply (Hpost task); [|done]. apply elem_of_app. right. by left. }
  set (h1 := fold_left (save_in_column (c0 :: tid0) buf) pre (heap st)).
  assert (Hh1 : deref h1 task = deref (heap st) task).
  { apply save_fold_frame. intros Hr. apply (Hpre task Hr).
    apply elem_of_app. left. apply elem_of_app. right. by left. }
  assert (Hlen : length h1 = length (heap st)) by apply save_fold_length.
  rewrite (save_in_column_hit _ _ h1 c l1 task l2); [|done| |].
  - rewrite deref_set_content_eq, Hh1, <- Hid; [done|].
    rewrite Hlen. apply Forall_app in Hb as [_ Hb].
    apply Forall_app in Hb as [Hb _]. apply Forall_app in Hb as [_ Hb].
    by apply Forall_cons in Hb as [Hb _].
  - apply Forall_forall. intros x Hx. apply has_id_false.
    unfold h1. rewrite id_at_save_fold. intros Heq.
    rewrite !map_app in Hids. simpl in Hids.
    apply NoDup_app in Hids as (_ & _ & Hids).
    apply NoDup_app in Hids as (Hids & _ & _).
    apply NoDup_app in Hids as (_ & Hdisj & _).
    apply (Hdisj (id_at (heap st) x)).
    + apply list_elem_of_In, in_map. by apply list_elem_of_In.
    + rewrite Heq, Hid. by left.
  - apply has_id_true. unfold h1. rewrite id_at_save_fold. by rewrite Hid.
Qed.

Lemma handleSaveEdit_shows_content_witness :
  let st := setEditContent (lit " b2 ") (onEditClick 1 st_three) in
  view st = Editing 1
  /\ view (handleSaveEdit st) = Viewing 1
  /\ deref (heap (handleSaveEdit st)) 1 = Task.mk (lit "task-6") (lit " b2 ").
Proof.
  intros st. split; [reflexivity|].
  apply (handleSaveEdit_shows_content st 1).
  - by apply (bool_decide_unpack _); vm_compute.
  - reflexivity.
  - by apply (bool_decide_unpack _); vm_compute.
  - by apply (bool_decide_unpack _); vm_compute.
  - discriminate.
  - reflexivity.
Defined.

(** ** The theme widget *)

(** The effect of [ThemeProvider] always ends with a theme that is not the
    empty string and is also the document's [data-theme]: the stored one,
    or ["default"] when nothing is stored or the empty string is. *)
Theorem themeEffect_spec (s : Storage) :
  data_theme (themeEffect s) = Some (theme (themeEffect s))
  /\ theme (themeEffect s) <> []
  /\ (s !! theme_key = None \/ s !! theme_key = Some [] ->
      theme (themeEffect s) = lit "default")
  /\ (forall t, s !! theme_key = Some t -> t <> [] ->
      theme (themeEffect s) = t).
Proof.
  unfold themeEffect. split; [done|]. split; [|split].
  - simpl. destruct (s !! theme_key) as [[|c t]|]; done.
  - intros [-> | ->]; done.
  - intros t -> Ht. simpl. by destruct t.
Qed.

Lemma themeEffect_spec_witness :
  theme (themeEffect {[ theme_key := lit "retro" ]}) = lit "retro"
  /\ theme (themeEffect ∅) = lit "default".
Proof.
  split.
  - apply (proj2 (proj2 (proj2 (themeEffect_spec {[ theme_key := lit "retro" ]})))).
    + apply lookup_singleton_eq.
    + discriminate.
  - apply (proj1 (proj2 (proj2 (themeEffect_spec ∅)))). left.
    apply lookup_empty.
Defined.

(** A theme chosen in the dropdown is the one the widget starts with on
    the next mount. *)
Theorem changeTheme_reload (newTheme : jsstring) (s : Storage) :
  newTheme ∈ themes ->
  themeEffect (changeTheme newTheme s).2 = (changeTheme newTheme s).1.
Proof.
  intros Hin. unfold changeTheme, themeEffect. simpl.
  rewrite lookup_insert_eq.
  assert (Hne : truthy newTheme = true).
  { unfold themes in Hin.
    apply list_elem_of_In, in_map_iff in Hin as (name & <- & Hname).
    simpl in Hname. by repeat destruct Hname as [<-|Hname]. }
  by rewrite Hne.
Qed.

Lemma changeTheme_reload_witness :
  themeEffect (changeTheme (lit "dracula") ∅).2
  = {| theme := lit "dracula"; data_theme := Some (lit "dracula") |}.
Proof.
  apply (changeTheme_reload (lit "dracula") ∅).
  by apply (bool_decide_unpack _); vm_compute.
Defined.

(** The theme and the board do not meet in the storage: choosing a theme
    leaves what the board mounts on, and saving the board leaves the theme
    the widget starts with. *)
Theorem theme_board_apart (newTheme text : jsstring) (s : Storage) :
  mount ((changeTheme newTheme s).2 !! kanban_key) = mount (s !! kanban_key)
  /\ themeEffect (<[kanban_key := text]> s) = themeEffect s.
Proof.
  split.
  - unfold changeTheme. simpl. by rewrite lookup_insert_ne.
  - unfold themeEffect. by rewrite lookup_insert_ne.
Qed.

(** ** The fuel of the parser *)

Lemma parse_value_below fuel fuel' s :
  fuel <= fuel' -> below (parse_value fuel s) (parse_value fuel' s).
Proof.
  induction 1 as [|fuel' _ IH]; [apply below_refl|].
  destruct IH as [IH|IH]; [by left|]. rewrite IH.
  apply (parse_below_S fuel').
Qed.

(** The fuel [JSON.parse] gives its parser is enough for every text: it
    never runs out, and any larger fuel gives the same outcome. A
    [SyntaxError] is always one of the grammar. *)
Theorem parse_fuel_enough (text : jsstring) (fuel : nat) :
  2 * length text + 1 <= fuel ->
  parse_value fuel text <> OutOfFuel
  /\ parse_value fuel text = parse_value (2 * length text + 1) text.
Proof.
  intros Hfuel.
  pose proof (proj1 (parse_total (2 * length text + 1)) text (le_n _)) as Hstd.
  destruct (parse_value_below _ _ text Hfuel) as [Hout|Heq]; [done|].
  split; [|done]. by rewrite <- Heq.
Qed.

Lemma parse_fuel_enough_witness :
  parse_value 1000 (lit "[1, {}, tru]") <> OutOfFuel
  /\ parse_value 1000 (lit "[1, {}, tru]")
     = parse_value (2 * length (lit "[1, {}, tru]") + 1) (lit "[1, {}, tru]").
Proof. apply parse_fuel_enough. simpl. lia. Defined.

(** ** What a move can lose *)

(** A move never adds a task. It loses some only when the column it takes
    the task from holds several tasks of the id dragged: all of them leave
    and one comes back. *)
Theorem onDrop_total (taskId columnId : jsstring) (st st' : State) :
  onDrop taskId columnId st = Ok st' ->
  total (board st') = total (board st)
  \/ exists src, src ∈ board st
       /\ 2 <= count_id taskId (Column.tasks src)
       /\ total (board st') + count_id taskId (Column.tasks src)
          = total (board st) + 1.
Proof.
  intros Hdrop. pose proof (onDrop_board taskId columnId st) as Hb.
  rewrite Hdrop in Hb. unfold drop_board in Hb. simpl in Hb.
  destruct (drop_on Task.id taskId columnId (board st)) as [[b'|]|e] eqn:Hon;
    [|left; congruence|done].
  injection Hb as Hb. rewrite Hb.
  apply drop_board_total in Hon as (src & Hin & Hge & Htot).
  destruct (decide (count_id taskId (Column.tasks src) = 1)) as [Hone|Hmore].
  - left. lia.
  - right. exists src. split; [done|]. split; [lia|done].
Qed.

Lemma onDrop_total_witness :
  exists st',
    onDrop (lit "task-5") (lit "doing") st_twins = Ok st'
    /\ total (board st') = 2 /\ total (board st_twins) = 3
    /\ (total (board st') = total (board st_twins)
        \/ exists src, src ∈ board st_twins
             /\ 2 <= count_id (lit "task-5") (Column.tasks src)
             /\ total (board st') + count_id (lit "task-5") (Column.tasks src)
                = total (board st_twins) + 1).
Proof.
  eexists. split; [reflexivity|]. split; [reflexivity|]. split; [reflexivity|].
  apply (onDrop_total (lit "task-5") (lit "doing") st_twins). reflexivity.
Defined.

(** ** Leaving the edit mode *)

Lemma onDrop_isEditing taskId columnId st st' :
  onDrop taskId columnId st = Ok st' -> isEditing st' = isEditing st.
Proof.
  unfold onDrop. destruct (drop_on _ _ _ _) as [[cols|]|e]; [| |done];
    by intros [= <-].
Qed.

Lemma handleCreateTask_isEditing now st st' :
  handleCreateTask now st = Ok st' -> isEditing st' = isEditing st.
Proof.
  unfold handleCreateTask. destruct (truthy _); [|by intros [= <-]].
  destruct (columns st); [done|]. by intros [= <-].
Qed.

Lemma handleSaveEdit_cases_blank st :
  truthy (trim (editContent st)) = false -> handleSaveEdit st = st.
Proof.
  intros Hbuf. unfold handleSaveEdit. rewrite Hbuf.
  destruct (editTaskId st); [|done]. by rewrite andb_false_r.
Qed.

(** The editing flag goes down on two gestures only: Save with a buffer
    that does not trim to the empty string, and Cancel. No other gesture,
    and no Save of a blank buffer, leaves the edit mode. *)
Theorem isEditing_exit (e : Event) (st st' : State) :
  dispatch e st = Some (Ok st') ->
  isEditing st = true -> isEditing st' = false ->
  (e = SaveClick /\ truthy (trim (editContent st)) = true)
  \/ e = CancelClick.
Proof.
  intros Hstep Hon Hoff. destruct e; simpl in Hstep.
  - injection Hstep as <-. simpl in Hoff. congruence.
  - injection Hstep as Hstep. apply handleCreateTask_isEditing in Hstep.
    congruence.
  - destruct (existsb _ _); [|done]. injection Hstep as Hstep.
    apply onDrop_isEditing in Hstep. congruence.
  - case_bool_decide; [|done]. injection Hstep as <-. simpl in Hoff.
    congruence.
  - destruct (view st); [done| |done]. by injection Hstep as <-.
  - destruct (view st); [done..|]. injection Hstep as <-. simpl in Hoff.
    congruence.
  - destruct (view st); [done..|]. injection Hstep as <-. left.
    split; [done|].
    destruct (truthy (trim (editContent st))) eqn:Hbuf; [done|].
    rewrite handleSaveEdit_cases_blank in Hoff by done. congruence.
  - by right.
  - destruct (view st); [done| |done]. injection Hstep as <-.
    simpl in Hoff. congruence.
  - destruct (view st); [done| |done]. injection Hstep as <-.
    simpl in Hoff. congruence.
Qed.

Lemma isEditing_exit_witness :
  let st := setEditContent (lit "b2") (onEditClick 1 st_three) in
  isEditing st = true
  /\ isEditing (handleSaveEdit st) = false
  /\ ((SaveClick = SaveClick /\ truthy (trim (editContent st)) = true)
      \/ SaveClick = CancelClick).
Proof.
  intros st. split; [reflexivity|]. split; [reflexivity|].
  exact (isEditing_exit SaveClick st (handleSaveEdit st) eq_refl eq_refl eq_refl).
Defined.
